(** * Request interception: canonical URL resolver and request lifecycle

  A shallow embedding of [src/utils/getUrlByRequestOptions.ts] and of the
  client-request lifecycle controller exercised by
  [src/interceptors/ClientRequest/NodeClientRequest.test.ts].

  JavaScript strings are [string]; [undefined]/[null] option fields are
  [option]; a thrown exception is the [Throw] branch of [Completion].  The
  built-ins of the JavaScript host that the resolver calls ([Number],
  number-to-string conversion, [ToBoolean] on numbers, [===] on numbers and
  the [URL] class) are the fields of the class [JsHost]; [RefHost] is one
  concrete host on which the definitions evaluate. *)

From Stdlib Require Import Bool Ascii String List ZArith Lia.
From Stdlib Require Import DecimalString.
Import ListNotations.
Open Scope string_scope.

(** ** String built-ins used by the resolver *)

Module JsString.

Definition colon : ascii := ":"%char.

(** [\d] of a JavaScript regular expression: the ten ASCII digits. *)
Definition is_digit (c : ascii) : bool :=
  (48 <=? nat_of_ascii c)%nat && (nat_of_ascii c <=? 57)%nat.

Fixpoint all_digits (s : string) : bool :=
  match s with
  | EmptyString => true
  | String c rest => is_digit c && all_digits rest
  end.

(** [\d+$] anchored at the beginning of [s]: [s] is one or more digits and
    nothing else. *)
Definition digits_to_end (s : string) : bool :=
  match s with
  | EmptyString => false
  | String _ _ => all_digits s
  end.

(** [s.match(/:(\d+)$/)]: the search tries every start position from the
    left; the value is the capture group of the first position that
    matches, [None] when the match result is [null]. *)
Fixpoint match_colon_digits (s : string) : option string :=
  match s with
  | EmptyString => None
  | String c rest =>
      if Ascii.eqb c colon && digits_to_end rest then Some rest
      else match_colon_digits rest
  end.

(** [s.replace(/:\d+$/, '')]: the first match, searched from the left, is
    replaced by the empty string. *)
Fixpoint replace_colon_digits (s : string) : string :=
  match s with
  | EmptyString => EmptyString
  | String c rest =>
      if Ascii.eqb c colon && digits_to_end rest then EmptyString
      else String c (replace_colon_digits rest)
  end.

(** [s.includes(c)] for a one-character needle. *)
Fixpoint includes (c : ascii) (s : string) : bool :=
  match s with
  | EmptyString => false
  | String d rest => Ascii.eqb d c || includes c rest
  end.

(** [s.startsWith(c)] and [s.endsWith(c)] for a one-character argument. *)
Definition startsWith (c : ascii) (s : string) : bool :=
  match s with
  | EmptyString => false
  | String d _ => Ascii.eqb d c
  end.

Fixpoint endsWith (c : ascii) (s : string) : bool :=
  match s with
  | EmptyString => false
  | String d EmptyString => Ascii.eqb d c
  | String _ rest => endsWith c rest
  end.

(** [s.split(c)] for a one-character separator: never empty. *)
Fixpoint split (c : ascii) (s : string) : list string :=
  match s with
  | EmptyString => [EmptyString]
  | String d rest =>
      if Ascii.eqb d c then EmptyString :: split c rest
      else match split c rest with
           | [] => [String d EmptyString]
           | piece :: pieces => String d piece :: pieces
           end
  end.

(** [ToBoolean] on a string: every string but the empty one is truthy. *)
Definition truthy (s : string) : bool :=
  match s with
  | EmptyString => false
  | String _ _ => true
  end.

(** A value of type [string | null | undefined] tested in a condition:
    [Some s] when it is a truthy string [s]. *)
Definition when_truthy (s : option string) : option string :=
  match s with
  | Some s => if truthy s then Some s else None
  | None => None
  end.

(** [a || b] where [a : string | null | undefined] and [b : string]. *)
Definition or_else (a : option string) (b : string) : string :=
  match when_truthy a with
  | Some s => s
  | None => b
  end.

(** A value interpolated in a template literal; [undefined] prints as the
    nine letters of its name. *)
Definition interpolate (s : option string) : string :=
  match s with
  | Some s => s
  | None => "undefined"
  end.

End JsString.

(** ** The JavaScript host *)

Class JsHost : Type := {
  (** the Number type *)
  number : Type;
  (** [ToBoolean(n)] *)
  number_truthy : number -> bool;
  (** [Number(s)] for a string [s] *)
  StringToNumber : string -> number;
  (** the conversion of a number interpolated in a template literal *)
  NumberToString : number -> string;
  (** [a === b] on two numbers *)
  number_strict_eq : number -> number -> bool;
  (** the value of an integer literal of the source text *)
  number_literal : Z -> number;
  (** instances of the WHATWG [URL] class *)
  URL : Type;
  (** [new URL(input)]; [None] when the constructor throws *)
  URL_new : string -> option URL;
  (** the [href] and [protocol] getters *)
  URL_href : URL -> string;
  URL_protocol : URL -> string
}.

(** What a call either returns or throws.  The only exception the resolver
  can raise is the one of [new URL(input)] on an input that is not a valid
  absolute URL. *)
Inductive Exception : Type :=
| UrlConstructionError (input : string).

Inductive Completion (A : Type) : Type :=
| Return (a : A)
| Throw (e : Exception).
Arguments Return {A} a.
Arguments Throw {A} e.

Section Resolver.

Context {js : JsHost}.

(** *** The option bag, [ResolvedRequestOptions] *)

(** [number | string], the type of the port fields. *)
Inductive PortValue : Type :=
  | PortNumber (n : number)
  | PortString (s : string).

(** The fields of an [Agent] instance that the resolver reads:
    [agent.protocol], [agent.options.port] and [agent.defaultPort]. *)
Record Agent : Type := {
  agent_protocol : option string;
  agent_options_port : option PortValue;
  agent_defaultPort : option PortValue
}.

(** [options.agent : Agent | boolean | undefined]. *)
Inductive AgentOption : Type :=
  | AgentInstance (a : Agent)
  | AgentBoolean (b : bool).

(** [options.cert : string | Buffer | Array<string | Buffer> | undefined]. *)
Inductive Cert : Type :=
  | CertString (s : string)
  | CertBuffer (bytes : list Byte.byte)
  | CertArray (items : list (string + list Byte.byte)).

Record ResolvedRequestOptions : Type := {
  protocol : option string;
  host : option string;
  hostname : option string;
  port : option PortValue;
  path : option string;
  auth : option string;
  cert : option Cert;
  agent : option AgentOption;
  uri : option URL
}.

(** The option bag with every field absent. *)
Definition no_options : ResolvedRequestOptions :=
  {| protocol := None; host := None; hostname := None; port := None;
     path := None; auth := None; cert := None; agent := None;
     uri := None |}.

(** *** Conversions on the port and certificate fields *)

(** [ToBoolean] of a [number | string | null | undefined]. *)
Definition port_truthy (p : option PortValue) : bool :=
  match p with
  | Some (PortNumber n) => number_truthy n
  | Some (PortString s) => JsString.truthy s
  | None => false
  end.

(** [Number(p)]. *)
Definition Number (p : PortValue) : number :=
  match p with
  | PortNumber n => n
  | PortString s => StringToNumber s
  end.

(** [ToBoolean] of the certificate option: buffers and arrays are objects,
    hence truthy. *)
Definition cert_truthy (c : option Cert) : bool :=
  match c with
  | Some (CertString s) => JsString.truthy s
  | Some (CertBuffer _) => true
  | Some (CertArray _) => true
  | None => false
  end.

(** *** Constants *)

Definition DEFAULT_PATH : string := "/".
Definition DEFAULT_PROTOCOL : string := "http:".
Definition DEFAULT_HOST : string := "localhost".
Definition SSL_PORT : number := number_literal 443.

(** *** The resolver *)

Definition getAgent (options : ResolvedRequestOptions) : option Agent :=
  match agent options with
  | Some (AgentInstance a) => Some a
  | _ => None
  end.

(** [agent?.field] on the result of [getAgent]. *)
Definition agent_field {A : Type} (field : Agent -> option A)
  (agent : option Agent) : option A :=
  match agent with
  | Some a => field a
  | None => None
  end.

Definition getPortByRequestOptions (options : ResolvedRequestOptions)
  : option number :=
  (* Use the explicitly provided port. *)
  if port_truthy (port options) then option_map Number (port options)
  else
    (* Extract the port from the hostname. *)
    let extractedPort :=
      match hostname options with
      | Some hostname => JsString.match_colon_digits hostname
      | None => None
      end in
    match extractedPort with
    | Some digits => Some (StringToNumber digits)
    | None =>
        (* Otherwise, try to resolve port from the agent. *)
        let agent := getAgent options in
        let agent_port := agent_field agent_options_port agent in
        if port_truthy agent_port then option_map Number agent_port
        else
          let defaultPort := agent_field agent_defaultPort agent in
          if port_truthy defaultPort then option_map Number defaultPort
          else None
    end.

(** [port === SSL_PORT], false when [port] is [undefined]. *)
Definition is_SSL_PORT (p : option number) : bool :=
  match p with
  | Some n => number_strict_eq n SSL_PORT
  | None => false
  end.

Definition getProtocolByRequestOptions (options : ResolvedRequestOptions)
  : string :=
  match JsString.when_truthy (protocol options) with
  | Some protocol => protocol
  | None =>
      let agent := getAgent options in
      let agentProtocol := agent_field agent_protocol agent in
      match JsString.when_truthy agentProtocol with
      | Some agentProtocol => agentProtocol
      | None =>
          let port := getPortByRequestOptions options in
          let isSecureRequest :=
            cert_truthy (cert options) || is_SSL_PORT port in
          if isSecureRequest then "https:"
          else JsString.or_else (option_map URL_protocol (uri options))
                                DEFAULT_PROTOCOL
      end
  end.

Definition getHostByRequestOptions (options : ResolvedRequestOptions)
  : string :=
  match hostname options with
  | Some hostname => JsString.replace_colon_digits hostname
  | None => JsString.or_else (host options) DEFAULT_HOST
  end.

(** [{ username, password }] of [getAuthByRequestOptions]; [password] is
    [undefined] when the auth string has no colon. *)
Record Credentials : Type := {
  username : string;
  password : option string
}.

Definition getAuthByRequestOptions (options : ResolvedRequestOptions)
  : option Credentials :=
  match JsString.when_truthy (auth options) with
  | Some auth =>
      match JsString.split JsString.colon auth with
      | username :: password :: _ =>
          Some {| username := username; password := Some password |}
      | [username] => Some {| username := username; password := None |}
      | [] => None
      end
  | None => None
  end.

(** The [authString] of [getUrlByRequestOptions]. *)
Definition authString (credentials : option Credentials) : string :=
  match credentials with
  | Some c => username c ++ ":" ++ JsString.interpolate (password c) ++ "@"
  | None => ""
  end.

Definition isRawIPv6Address (host : string) : bool :=
  JsString.includes ":" host
  && negb (JsString.startsWith "[" host)
  && negb (JsString.endsWith "]" host).

Definition getHostname (host : string) (port : option number) : string :=
  let portString := match port with
                    | Some p => ":" ++ NumberToString p
                    | None => ""
                    end in
  if isRawIPv6Address host then "[" ++ host ++ "]" ++ portString
  else match port with
       | None => host
       | Some _ => host ++ portString
       end.

(** [new URL(input)] as a completion. *)
Definition construct_URL (input : string) : Completion URL :=
  match URL_new input with
  | Some u => Return u
  | None => Throw (UrlConstructionError input)
  end.

Definition getUrlByRequestOptions (options : ResolvedRequestOptions)
  : Completion URL :=
  match uri options with
  | Some u => construct_URL (URL_href u)
  | None =>
      let protocol := getProtocolByRequestOptions options in
      let host := getHostByRequestOptions options in
      let port := getPortByRequestOptions options in
      let hostname := getHostname host port in
      let path := JsString.or_else (path options) DEFAULT_PATH in
      let credentials := getAuthByRequestOptions options in
      let authString := authString credentials in
      construct_URL (protocol ++ "//" ++ authString ++ hostname ++ path)
  end.

(** *** The resolution steps in the words of the specification

    The candidates for the port and for the protocol, in their order of
    precedence, and the string handed to the [URL] constructor. *)

Fixpoint first_defined {A : Type} (candidates : list (option A)) : option A :=
  match candidates with
  | [] => None
  | Some a :: _ => Some a
  | None :: rest => first_defined rest
  end.

(** A port field counts as given when it is truthy: a number other than
    zero and [NaN], or a non-empty string. *)
Definition given_port (p : option PortValue) : option number :=
  if port_truthy p then option_map Number p else None.

Definition explicit_port (options : ResolvedRequestOptions) : option number :=
  given_port (port options).

Definition port_in_hostname (options : ResolvedRequestOptions)
  : option number :=
  match hostname options with
  | Some h => option_map StringToNumber (JsString.match_colon_digits h)
  | None => None
  end.

Definition agent_own_port (options : ResolvedRequestOptions) : option number :=
  match agent options with
  | Some (AgentInstance a) => given_port (agent_options_port a)
  | _ => None
  end.

Definition agent_default_port (options : ResolvedRequestOptions)
  : option number :=
  match agent options with
  | Some (AgentInstance a) => given_port (agent_defaultPort a)
  | _ => None
  end.

Definition port_candidates (options : ResolvedRequestOptions)
  : list (option number) :=
  [ explicit_port options; port_in_hostname options;
    agent_own_port options; agent_default_port options ].

Definition explicit_protocol (options : ResolvedRequestOptions)
  : option string :=
  JsString.when_truthy (protocol options).

Definition agent_hint_protocol (options : ResolvedRequestOptions)
  : option string :=
  match agent options with
  | Some (AgentInstance a) => JsString.when_truthy (agent_protocol a)
  | _ => None
  end.

Definition secure_protocol (options : ResolvedRequestOptions)
  : option string :=
  if cert_truthy (cert options)
     || is_SSL_PORT (first_defined (port_candidates options))
  then Some "https:" else None.

Definition uri_protocol (options : ResolvedRequestOptions) : option string :=
  match uri options with
  | Some u => JsString.when_truthy (Some (URL_protocol u))
  | None => None
  end.

Definition protocol_candidates (options : ResolvedRequestOptions)
  : list (option string) :=
  [ explicit_protocol options; agent_hint_protocol options;
    secure_protocol options; uri_protocol options ].

(** The argument of the one call of the [URL] constructor that a resolution
    makes. *)
Definition final_input (options : ResolvedRequestOptions) : string :=
  match uri options with
  | Some u => URL_href u
  | None =>
      getProtocolByRequestOptions options ++ "//"
      ++ authString (getAuthByRequestOptions options)
      ++ getHostname (getHostByRequestOptions options)
                     (getPortByRequestOptions options)
      ++ JsString.or_else (path options) DEFAULT_PATH
  end.

End Resolver.

(** ** Option bags with their falsy fields removed *)

Section Normalisation.

Context {js : JsHost}.

(** The bag in which every field that the resolver only tests for
    truthiness is absent when that test fails: an empty [protocol], [host],
    [path] or [auth], a falsy [port], an empty certificate string, and an
    [agent] that is not an [Agent] instance.  [hostname], which the
    resolver compares with [null], and [uri] are kept as they are. *)
Definition absent_when_falsy (options : ResolvedRequestOptions)
  : ResolvedRequestOptions :=
  {| protocol := JsString.when_truthy (protocol options);
     host := JsString.when_truthy (host options);
     hostname := hostname options;
     port := if port_truthy (port options) then port options else None;
     path := JsString.when_truthy (path options);
     auth := JsString.when_truthy (auth options);
     cert := if cert_truthy (cert options) then cert options else None;
     agent := option_map AgentInstance (getAgent options);
     uri := uri options |}.

(** The hostname that goes into the assembled string. *)
Definition rendered_hostname (options : ResolvedRequestOptions) : string :=
  getHostname (getHostByRequestOptions options)
              (getPortByRequestOptions options).

End Normalisation.

(** ** A reference host

    Numbers are the integers and [NaN]; [Number(s)] reads a string of
    decimal digits; [new URL(input)] accepts an input of the shape
    [scheme://authority...] with a non-empty alphabetic scheme and a
    non-empty authority, and keeps the input as its [href]. *)

Module RefHost.

Inductive RefNumber : Type :=
| NaN
| Int (z : Z).

Definition digit_value (c : ascii) : Z := Z.of_nat (nat_of_ascii c) - 48.

Fixpoint decimal_value (acc : Z) (s : string) : Z :=
  match s with
  | EmptyString => acc
  | String c rest => decimal_value (10 * acc + digit_value c) rest
  end.

Definition ref_StringToNumber (s : string) : RefNumber :=
  if JsString.digits_to_end s then Int (decimal_value 0 s) else NaN.

Definition ref_NumberToString (n : RefNumber) : string :=
  match n with
  | NaN => "NaN"
  | Int z => NilZero.string_of_int (Z.to_int z)
  end.

Definition ref_number_truthy (n : RefNumber) : bool :=
  match n with
  | NaN => false
  | Int z => negb (Z.eqb z 0)
  end.

Definition ref_number_strict_eq (a b : RefNumber) : bool :=
  match a, b with
  | Int x, Int y => Z.eqb x y
  | _, _ => false
  end.

Record RefURL : Type := {
  ref_href : string;
  ref_protocol : string
}.

Definition is_alpha (c : ascii) : bool :=
  let n := nat_of_ascii c in
  ((65 <=? n)%nat && (n <=? 90)%nat) || ((97 <=? n)%nat && (n <=? 122)%nat).

(** The longest alphabetic prefix of [s] and what follows it. *)
Fixpoint span_alpha (s : string) : string * string :=
  match s with
  | EmptyString => (EmptyString, EmptyString)
  | String c rest =>
      if is_alpha c
      then let (scheme, tail) := span_alpha rest in (String c scheme, tail)
      else (EmptyString, s)
  end.

Definition ref_URL_new (input : string) : option RefURL :=
  match span_alpha input with
  | (String c scheme, String ":" (String "/" (String "/" (String a rest)))) =>
      if Ascii.eqb a "/" then None
      else Some {| ref_href := input;
                   ref_protocol := String c scheme ++ ":" |}
  | _ => None
  end.

#[export] Instance ref_host : JsHost := {|
  number := RefNumber;
  number_truthy := ref_number_truthy;
  StringToNumber := ref_StringToNumber;
  NumberToString := ref_NumberToString;
  number_strict_eq := ref_number_strict_eq;
  number_literal := Int;
  URL := RefURL;
  URL_new := ref_URL_new;
  URL_href := ref_href;
  URL_protocol := ref_protocol
|}.

End RefHost.

(** ** The request lifecycle controller

    The controller ([NodeClientRequest]), the dispatcher
    ([AsyncEventEmitter]) and the transport are not among the sources; the
    definitions of this part follow sections 3, 4.2 and 4.3 of the
    specification. *)

Section Lifecycle.

Context {js : JsHost}.

(** A header mapping, in insertion order. *)
Definition Headers : Type := list (string * string).

(** Modelled from the spec: NodeClientRequest.ts is missing; the body of a
    ResponseDescriptor, a byte sequence or a sequence of chunks. *)
Inductive Body : Type :=
| Bytes (b : string)
| Chunks (cs : list string).

(** Modelled from the spec: NodeClientRequest.ts is missing; the
    ResponseDescriptor of section 3. *)
Record ResponseDescriptor : Type := {
  status : Z;
  statusText : option string;
  response_headers : Headers;
  body : Body
}.

(** Modelled from the spec: NodeClientRequest.ts is missing; the
    ResolutionOutcome of section 3; a request for which nothing was recorded
    is a passthrough. *)
Inductive ResolutionOutcome : Type :=
| Mocked (d : ResponseDescriptor)
| Passthrough.

(** Modelled from the spec: NodeClientRequest.ts is missing; the kinds and
    metadata of an InterceptedError (section 3). *)
Inductive ErrorKind : Type :=
| DnsNotFound
| ConnectionRefused
| Other.

(** Modelled from the spec: NodeClientRequest.ts is missing; an
    InterceptedError, the kind and the metadata that the transport
    supplies. *)
Record InterceptedError : Type := {
  kind : ErrorKind;
  syscall : option string;
  address : option string;
  error_port : option Z
}.

(** Modelled from the spec: NodeClientRequest.ts is missing; the response
    object handed to the listeners of "response": status, headers and a body
    stream, read chunk by chunk. *)
Record IncomingMessage : Type := {
  statusCode : Z;
  statusMessage : option string;
  message_headers : Headers;
  message_body : list string
}.

(** Modelled from the spec: NodeClientRequest.ts is missing; the errors of
    section 7 that reach the "error" listeners. *)
Inductive RequestError : Type :=
| UrlConstruction (e : Exception)
| TransportError (e : InterceptedError).

(** Modelled from the spec: NodeClientRequest.ts is missing; the two
    terminal events of a request. *)
Inductive Event : Type :=
| response (msg : IncomingMessage)
| error (e : RequestError).

(** Modelled from the spec: NodeClientRequest.ts is missing; one use of the
    real transport (section 6, outbound): the canonical URL, method and
    headers, and the body chunks in order. *)
Record TransportRequest : Type := {
  transport_url : URL;
  transport_method : string;
  transport_headers : Headers;
  transport_body : list string
}.

(** Modelled from the spec: NodeClientRequest.ts is missing; what the
    transport hands back, a response or a terminal error. *)
Inductive TransportResult : Type :=
| Responds (msg : IncomingMessage)
| Fails (e : InterceptedError).

(** Modelled from the spec: NodeClientRequest.ts is missing; the states of
    section 4.3. *)
Inductive State : Type :=
| CREATED
| WRITING
| ENDED
| INSPECTING
| MOCK_RESPONDING
| CONNECTING
| RESPONDED
| ERRORED.

(** Modelled from the spec: NodeClientRequest.ts is missing; the lifecycle
    controller of one request. [events] is the log of the terminal events
    emitted so far and [transport_calls] the log of the uses of the real
    transport, both oldest first. *)
Record Controller : Type := {
  state : State;
  url : option URL;
  method : string;
  headers : Headers;
  chunks : list string;
  outcome : ResolutionOutcome;
  events : list Event;
  transport_calls : list TransportRequest;
  finished : bool;
  writableEnded : bool
}.

(** Reading a body to its end. *)
Definition drain (stream : list string) : string := String.concat "" stream.

Definition body_bytes (b : Body) : string :=
  match b with
  | Bytes b => b
  | Chunks cs => drain cs
  end.

(** Modelled from the spec: NodeClientRequest.ts is missing; the response
    synthesized from a ResponseDescriptor: its status and headers, and a
    body sequence that replays the descriptor's body. *)
Definition synthesize (d : ResponseDescriptor) : IncomingMessage :=
  {| statusCode := status d;
     statusMessage := statusText d;
     message_headers := response_headers d;
     message_body := match body d with
                     | Bytes b => [b]
                     | Chunks cs => cs
                     end |}.

(** Modelled from the spec: NodeClientRequest.ts is missing; construction.
    The controller resolves its canonical URL with [getUrlByRequestOptions];
    when that fails the request goes to [ERRORED] and the failure is emitted
    as an error. *)
Definition create (method : string) (headers : Headers)
  (options : ResolvedRequestOptions) : Controller :=
  match getUrlByRequestOptions options with
  | Return u =>
      {| state := CREATED; url := Some u; method := method;
         headers := headers; chunks := []; outcome := Passthrough;
         events := []; transport_calls := [];
         finished := false; writableEnded := false |}
  | Throw e =>
      {| state := ERRORED; url := None; method := method;
         headers := headers; chunks := []; outcome := Passthrough;
         events := [error (UrlConstruction e)]; transport_calls := [];
         finished := false; writableEnded := false |}
  end.

(** Modelled from the spec: NodeClientRequest.ts is missing; [write(chunk)],
    valid only before [end]; it appends to the buffered body and does
    nothing else. *)
Definition write (chunk : string) (c : Controller) : Controller :=
  match state c with
  | CREATED | WRITING =>
      {| state := WRITING; url := url c; method := method c;
         headers := headers c; chunks := chunks c ++ [chunk];
         outcome := outcome c; events := events c;
         transport_calls := transport_calls c;
         finished := finished c; writableEnded := writableEnded c |}
  | _ => c
  end.

(** The chunks that [end] appends: its argument, when it has one. *)
Definition final_chunks (finalChunk : option string) : list string :=
  match finalChunk with
  | Some chunk => [chunk]
  | None => []
  end.

(** Modelled from the spec: NodeClientRequest.ts is missing;
    [end(finalChunk?)] appends the final chunk, freezes the request and
    starts the inspection; a second call is a no-op. *)
Definition end_ (finalChunk : option string) (c : Controller) : Controller :=
  match state c with
  | CREATED | WRITING =>
      {| state := INSPECTING; url := url c; method := method c;
         headers := headers c;
         chunks := chunks c ++ final_chunks finalChunk;
         outcome := outcome c; events := events c;
         transport_calls := transport_calls c;
         finished := finished c; writableEnded := writableEnded c |}
  | _ => c
  end.

(** Modelled from the spec: NodeClientRequest.ts is missing; the
    mock-setting operation. It records the descriptor once, first call wins,
    and has no effect outside [INSPECTING]. *)
Definition respondWith (d : ResponseDescriptor) (c : Controller)
  : Controller :=
  match state c, outcome c with
  | INSPECTING, Passthrough =>
      {| state := INSPECTING; url := url c; method := method c;
         headers := headers c; chunks := chunks c;
         outcome := Mocked d; events := events c;
         transport_calls := transport_calls c;
         finished := finished c; writableEnded := writableEnded c |}
  | _, _ => c
  end.

(** Modelled from the spec: AsyncEventEmitter.ts is missing; what one
    listener of the inspection event does with the handle it is given: the
    calls of the mock-setting operation it makes, in order, and whether its
    reaction ends in a failure. *)
Record Reaction : Type := {
  calls : list ResponseDescriptor;
  faulted : bool
}.

(** Modelled from the spec: AsyncEventEmitter.ts is missing; a listener of
    the inspection event, which reads the handle it is given. *)
Definition Listener : Type := Controller -> Reaction.

(** Modelled from the spec: AsyncEventEmitter.ts is missing; the effect on
    the controller of one listener's reaction. *)
Definition react (l : Listener) (c : Controller) : Controller :=
  fold_left (fun c d => respondWith d c) (calls (l c)) c.

(** Modelled from the spec: AsyncEventEmitter.ts is missing; the
    dispatcher's [emit] (section 4.2). The listeners run one after the other
    in registration order, each on the state the previous ones left; a
    failure is recorded and the remaining listeners still run. The boolean
    is the aggregated failure of the completion signal. *)
Fixpoint emit (listeners : list Listener) (c : Controller)
  : Controller * bool :=
  match listeners with
  | [] => (c, false)
  | l :: rest =>
      let failed := faulted (l c) in
      let (c', failures) := emit rest (react l c) in
      (c', failed || failures)
  end.

(** Modelled from the spec: NodeClientRequest.ts is missing; the branch
    taken once the inspection emission has completed. With a recorded mock
    the response is synthesized and emitted and the buffered body is
    discarded; without one the real transport is opened with the resolved
    URL, the original headers and the buffered chunks. *)
Definition settle (c : Controller) : Controller :=
  match state c with
  | INSPECTING =>
      match outcome c with
      | Mocked d =>
          {| state := MOCK_RESPONDING; url := url c; method := method c;
             headers := headers c; chunks := [];
             outcome := outcome c;
             events := events c ++ [response (synthesize d)];
             transport_calls := transport_calls c;
             finished := true; writableEnded := true |}
      | Passthrough =>
          match url c with
          | Some u =>
              {| state := CONNECTING; url := url c; method := method c;
                 headers := headers c; chunks := [];
                 outcome := outcome c; events := events c;
                 transport_calls :=
                   transport_calls c ++
                   [{| transport_url := u;
                       transport_method := method c;
                       transport_headers := headers c;
                       transport_body := chunks c |}];
                 finished := true; writableEnded := true |}
          | None => c
          end
      end
  | _ => c
  end.

Definition with_state (s : State) (c : Controller) : Controller :=
  {| state := s; url := url c; method := method c;
     headers := headers c; chunks := chunks c; outcome := outcome c;
     events := events c; transport_calls := transport_calls c;
     finished := finished c; writableEnded := writableEnded c |}.

Definition emitting (ev : Event) (c : Controller) : Controller :=
  {| state := state c; url := url c; method := method c;
     headers := headers c; chunks := chunks c; outcome := outcome c;
     events := events c ++ [ev]; transport_calls := transport_calls c;
     finished := finished c; writableEnded := writableEnded c |}.

(** Modelled from the spec: NodeClientRequest.ts is missing; the mocked
    response has been delivered in full. *)
Definition deliver (c : Controller) : Controller :=
  match state c with
  | MOCK_RESPONDING => with_state RESPONDED c
  | _ => c
  end.

(** Modelled from the spec: NodeClientRequest.ts is missing; the passthrough
    relay. What the transport produces is forwarded unchanged as the
    request's own "response" or "error". *)
Definition relay (r : TransportResult) (c : Controller) : Controller :=
  match state c with
  | CONNECTING =>
      match r with
      | Responds msg => with_state RESPONDED (emitting (response msg) c)
      | Fails e => with_state ERRORED (emitting (error (TransportError e)) c)
      end
  | _ => c
  end.

(** Modelled from the spec: NodeClientRequest.ts is missing; everything that
    can happen to a controller after its construction. *)
Inductive Action : Type :=
| Write (chunk : string)
| End (finalChunk : option string)
| RespondWith (d : ResponseDescriptor)
| InspectionCompletes
| BodyDelivered
| TransportAnswers (r : TransportResult).

(** Modelled from the spec: NodeClientRequest.ts is missing; the effect of
    one action, and of a sequence of actions in any order. *)
Definition step (c : Controller) (a : Action) : Controller :=
  match a with
  | Write chunk => write chunk c
  | End finalChunk => end_ finalChunk c
  | RespondWith d => respondWith d c
  | InspectionCompletes => settle c
  | BodyDelivered => deliver c
  | TransportAnswers r => relay r c
  end.

Definition run (actions : list Action) (c : Controller) : Controller :=
  fold_left step actions c.

(** Modelled from the spec: the transport is missing; it is an opaque
    capability that answers every request with a response or with an
    error. *)
Definition Transport : Type := TransportRequest -> TransportResult.

(** Modelled from the spec: NodeClientRequest.ts is missing; the controller
    once the caller has written [writes] and called [end] (section 2, data
    flows). *)
Definition ended (method : string) (headers : Headers)
  (options : ResolvedRequestOptions) (writes : list string)
  (finalChunk : option string) : Controller :=
  end_ finalChunk
    (fold_left (fun c chunk => write chunk c) writes
       (create method headers options)).

(** Modelled from the spec: NodeClientRequest.ts is missing; the controller
    once the listeners of the inspection event have all settled. *)
Definition inspected (method : string) (headers : Headers)
  (options : ResolvedRequestOptions) (writes : list string)
  (finalChunk : option string) (listeners : list Listener) : Controller :=
  fst (emit listeners (ended method headers options writes finalChunk)).

(** Modelled from the spec: NodeClientRequest.ts is missing; the conclusion
    of a request after the branch: the mocked body is delivered, or the
    transport answers the request it was opened with. *)
Definition conclude (transport : Transport) (c : Controller) : Controller :=
  match state c with
  | MOCK_RESPONDING => deliver c
  | CONNECTING =>
      match rev (transport_calls c) with
      | request :: _ => relay (transport request) c
      | [] => c
      end
  | _ => c
  end.

(** Modelled from the spec: NodeClientRequest.ts is missing; one whole
    request, from construction to its terminal state (section 2, data
    flows). *)
Definition perform (method : string) (headers : Headers)
  (options : ResolvedRequestOptions) (writes : list string)
  (finalChunk : option string) (listeners : list Listener)
  (transport : Transport) : Controller :=
  conclude transport
    (settle (inspected method headers options writes finalChunk listeners)).

(** Modelled from the spec: NodeClientRequest.ts is missing; the terminal
    states of section 4.3. *)
Definition terminal (s : State) : bool :=
  match s with
  | RESPONDED | ERRORED => true
  | _ => false
  end.

(** *** Views of a controller used in the statements *)

(** Everything of a controller but its recorded outcome. *)
Definition frame (c : Controller) :=
  (state c, url c, method c, headers c, chunks c, events c,
   transport_calls c, finished c, writableEnded c).

(** Everything that neither [write] nor [end] touches. *)
Definition request (c : Controller) :=
  (url c, method c, headers c, outcome c, events c, transport_calls c).

Definition buffering (c : Controller) : Prop :=
  state c = CREATED \/ state c = WRITING.

(** A controller at the end of its inspection, for a request whose URL
    resolved to [u]. *)
Definition awaiting (u : URL) (m : string) (h : Headers)
  (buffered : list string) (c : Controller) : Prop :=
  state c = INSPECTING /\ url c = Some u /\ method c = m /\ headers c = h
  /\ chunks c = buffered /\ events c = [] /\ transport_calls c = [].

(** The terminal events emitted so far, by state: none before the branch
    and while the transport is awaited, one afterwards. *)
Definition events_match_state (c : Controller) : Prop :=
  match state c with
  | MOCK_RESPONDING | RESPONDED | ERRORED => exists ev, events c = [ev]
  | _ => events c = []
  end.

End Lifecycle.

(** ** Sample requests on the reference host *)

Module Samples.
Import RefHost.

Definition example_uri : RefURL :=
  {| ref_href := "http://example.com/"; ref_protocol := "http:" |}.

(** A bag with a pre-built URI next to fields that point elsewhere. *)
Definition with_uri : ResolvedRequestOptions :=
  {| protocol := Some "https:"; host := Some "elsewhere.test";
     hostname := Some "elsewhere.test:8443";
     port := Some (PortNumber (Int 8443)); path := Some "/other";
     auth := Some "user:secret"; cert := Some (CertString "pem");
     agent := None; uri := Some example_uri |}.

(** [{ host: '::1', port: 8080 }]. *)
Definition ipv6_with_port : ResolvedRequestOptions :=
  {| protocol := None; host := Some "::1"; hostname := None;
     port := Some (PortNumber (Int 8080)); path := None; auth := None;
     cert := None; agent := None; uri := None |}.

(** [{ hostname: 'example.com:8080', agent }] with an agent whose default
    port is 80. *)
Definition port_in_the_hostname : ResolvedRequestOptions :=
  {| protocol := None; host := None; hostname := Some "example.com:8080";
     port := None; path := None; auth := None; cert := None;
     agent := Some (AgentInstance
                      {| agent_protocol := None;
                         agent_options_port := None;
                         agent_defaultPort := Some (PortNumber (Int 80)) |});
     uri := None |}.

(** [{ hostname: '' }]: the assembled string is [http:///]. *)
Definition empty_hostname : ResolvedRequestOptions :=
  {| protocol := None; host := None; hostname := Some "";
     port := None; path := None; auth := None; cert := None;
     agent := None; uri := None |}.

(** [{ hostname: '::1' }]. *)
Definition ipv6_hostname : ResolvedRequestOptions :=
  {| protocol := None; host := None; hostname := Some "::1";
     port := None; path := None; auth := None; cert := None;
     agent := None; uri := None |}.

(** The option bag of a request to [http://non-existing-url.com]. *)
Definition unreachable : ResolvedRequestOptions :=
  {| protocol := Some "http:"; host := Some "non-existing-url.com";
     hostname := Some "non-existing-url.com"; port := Some (PortString "");
     path := Some "/"; auth := None; cert := None; agent := None;
     uri := None |}.

(** The option bag of a POST to [/write] on a local server. *)
Definition local_write : ResolvedRequestOptions :=
  {| protocol := Some "http:"; host := Some "127.0.0.1:3000";
     hostname := Some "127.0.0.1"; port := Some (PortString "3000");
     path := Some "/write"; auth := None; cert := None; agent := None;
     uri := None |}.

(** [new Response(null, { status: 200, statusText: 'Works' })] and
    [new Response('mock created!', { status: 301 })]. *)
Definition works : ResponseDescriptor :=
  {| status := 200; statusText := Some "Works"; response_headers := [];
     body := Bytes "" |}.

Definition mock_created : ResponseDescriptor :=
  {| status := 301; statusText := None; response_headers := [];
     body := Bytes "mock created!" |}.

(** A listener that installs [works], and one that calls the mock-setting
    operation twice. *)
Definition installs_works : Listener :=
  fun _ => {| calls := [works]; faulted := false |}.

Definition installs_twice : Listener :=
  fun _ => {| calls := [works; mock_created]; faulted := false |}.

(** A transport on which every name resolution fails, and one whose server
    answers with the body it received. *)
Definition no_such_host : Transport :=
  fun _ => Fails {| kind := DnsNotFound; syscall := Some "getaddrinfo";
                    address := None; error_port := None |}.

Definition echo : Transport :=
  fun request =>
    Responds {| statusCode := 200; statusMessage := Some "OK";
                message_headers := [("x-powered-by", "Express")];
                message_body := [drain (transport_body request)] |}.

(** [{ port: '443' }], and a bag whose agent is an HTTPS agent. *)
Definition ssl_port : ResolvedRequestOptions :=
  {| protocol := None; host := None; hostname := None;
     port := Some (PortString "443"); path := None; auth := None;
     cert := None; agent := None; uri := None |}.

Definition https_agent : ResolvedRequestOptions :=
  {| protocol := None; host := Some "example.com"; hostname := None;
     port := None; path := None; auth := None; cert := None;
     agent := Some (AgentInstance
                      {| agent_protocol := Some "https:";
                         agent_options_port := None;
                         agent_defaultPort := Some (PortNumber (Int 443)) |});
     uri := None |}.

(** [{ protocol: 'http:', cert, port: 443 }]. *)
Definition explicit_http : ResolvedRequestOptions :=
  {| protocol := Some "http:"; host := None; hostname := None;
     port := Some (PortNumber (Int 443)); path := None; auth := None;
     cert := Some (CertString "pem"); agent := None; uri := None |}.

(** A controller in its inspection phase. *)
Definition under_inspection : Controller :=
  end_ None (create "GET" [] unreachable).

End Samples.

(** ** Sample bags for the edge cases of the resolver *)

Module EdgeSamples.
Import RefHost.

(** [{ hostname: 'example.com:8080' }]. *)
Definition host_and_port : ResolvedRequestOptions :=
  {| protocol := None; host := None; hostname := Some "example.com:8080";
     port := None; path := None; auth := None; cert := None;
     agent := None; uri := None |}.

(** [{ hostname: 'example.com:8080', port: 3000 }]. *)
Definition two_ports : ResolvedRequestOptions :=
  {| protocol := None; host := None; hostname := Some "example.com:8080";
     port := Some (PortNumber (Int 3000)); path := None; auth := None;
     cert := None; agent := None; uri := None |}.


(** [{ hostname: '[::1]' }]. *)
Definition bracketed_hostname : ResolvedRequestOptions :=
  {| protocol := None; host := None; hostname := Some "[::1]";
     port := None; path := None; auth := None; cert := None;
     agent := None; uri := None |}.

(** [{ hostname: ':8080' }]. *)
Definition only_a_port : ResolvedRequestOptions :=
  {| protocol := None; host := Some "example.com"; hostname := Some ":8080";
     port := None; path := None; auth := None; cert := None;
     agent := None; uri := None |}.

(** [{ hostname: 'example.com:443' }]. *)
Definition ssl_in_hostname : ResolvedRequestOptions :=
  {| protocol := None; host := None; hostname := Some "example.com:443";
     port := None; path := None; auth := None; cert := None;
     agent := None; uri := None |}.

(** Bags with an [auth] string: two parts, three parts, one part. *)
Definition with_auth (a : string) : ResolvedRequestOptions :=
  {| protocol := None; host := None; hostname := None;
     port := None; path := None; auth := Some a; cert := None;
     agent := None; uri := None |}.

(** [{ protocol: '', host: '', port: 0, path: '', auth: '', agent: false }]. *)
Definition all_falsy : ResolvedRequestOptions :=
  {| protocol := Some ""; host := Some ""; hostname := None;
     port := Some (PortNumber (Int 0)); path := Some ""; auth := Some "";
     cert := Some (CertString ""); agent := Some (AgentBoolean false);
     uri := None |}.

End EdgeSamples.

(** * Properties *)

(** ** The regular expressions of the resolver *)

Module JsStringFacts.
Import JsString.

Lemma all_digits_app (a b : string) :
  all_digits (a ++ b) = all_digits a && all_digits b.
Proof.
  induction a as [|c a IH]; simpl.
  - reflexivity.
  - rewrite IH. now rewrite andb_assoc.
Qed.

Lemma is_digit_colon : is_digit colon = false.
Proof. reflexivity. Qed.

Lemma no_digits_across_colon (a b : string) :
  digits_to_end (a ++ String colon b) = false.
Proof.
  destruct a as [|c a]; [reflexivity|].
  change (digits_to_end (String c a ++ String colon b))
    with (all_digits (String c a ++ String colon b)).
  rewrite all_digits_app.
  change (all_digits (String colon b))
    with (is_digit colon && all_digits b).
  rewrite is_digit_colon. now rewrite andb_false_r.
Qed.

(** On [pre:digits] the search of [/:(\d+)$/] succeeds at the colon that
    precedes the digits, and captures them. *)
Lemma match_colon_digits_app (pre digits : string) :
  digits_to_end digits = true ->
  match_colon_digits (pre ++ String colon digits) = Some digits.
Proof.
  intros Hd. induction pre as [|c pre IH]; simpl.
  - now rewrite Hd.
  - rewrite no_digits_across_colon, andb_false_r. exact IH.
Qed.

Lemma replace_colon_digits_app (pre digits : string) :
  digits_to_end digits = true ->
  replace_colon_digits (pre ++ String colon digits) = pre.
Proof.
  intros Hd. induction pre as [|c pre IH]; simpl.
  - now rewrite Hd.
  - rewrite no_digits_across_colon, andb_false_r. now rewrite IH.
Qed.

(** Conversely a match means that the string has the shape [pre:digits]. *)
Lemma match_colon_digits_shape (s digits : string) :
  match_colon_digits s = Some digits ->
  digits_to_end digits = true /\
  exists pre, s = pre ++ String colon digits.
Proof.
  induction s as [|c s IH]; simpl; [discriminate|].
  destruct (Ascii.eqb c colon && digits_to_end s) eqn:E.
  - intros [= <-]. apply andb_prop in E as [Ec Hd].
    apply Ascii.eqb_eq in Ec. subst c. split; [exact Hd|].
    now exists "".
  - intros H. destruct (IH H) as [Hd [pre ->]]. split; [exact Hd|].
    now exists (String c pre).
Qed.

Lemma replace_colon_digits_no_match (s : string) :
  match_colon_digits s = None -> replace_colon_digits s = s.
Proof.
  induction s as [|c s IH]; simpl; [reflexivity|].
  destruct (Ascii.eqb c colon && digits_to_end s); [discriminate|].
  intros H. now rewrite IH.
Qed.

Lemma append_empty_r (s : string) : s ++ "" = s.
Proof. induction s as [|c s IH]; simpl; [reflexivity | now rewrite IH]. Qed.

Lemma append_assoc (a b c : string) : (a ++ b) ++ c = a ++ (b ++ c).
Proof. induction a as [|x a IH]; simpl; [reflexivity | now rewrite IH]. Qed.

End JsStringFacts.

(** ** The canonical URL resolver *)

Section ResolverFacts.

Context {js : JsHost}.

Lemma port_truthy_given (p : option PortValue) :
  port_truthy p = true -> exists v, p = Some v /\ given_port p = Some (Number v).
Proof.
  unfold given_port. intros H. rewrite H.
  destruct p as [v|]; [now exists v | discriminate].
Qed.

Lemma port_falsy_given (p : option PortValue) :
  port_truthy p = false -> given_port p = None.
Proof. unfold given_port. now intros ->. Qed.

Lemma agent_own_port_field (options : ResolvedRequestOptions) :
  agent_own_port options
  = given_port (agent_field agent_options_port (getAgent options)).
Proof.
  unfold agent_own_port, getAgent, agent_field.
  now destruct (agent options) as [[a|b]|].
Qed.

Lemma agent_default_port_field (options : ResolvedRequestOptions) :
  agent_default_port options
  = given_port (agent_field agent_defaultPort (getAgent options)).
Proof.
  unfold agent_default_port, getAgent, agent_field.
  now destruct (agent options) as [[a|b]|].
Qed.

Lemma agent_hint_protocol_field (options : ResolvedRequestOptions) :
  agent_hint_protocol options
  = JsString.when_truthy (agent_field agent_protocol (getAgent options)).
Proof.
  unfold agent_hint_protocol, getAgent, agent_field.
  now destruct (agent options) as [[a|b]|].
Qed.

Lemma given_port_Some (p : option PortValue) :
  port_truthy p = true -> option_map Number p = given_port p.
Proof. unfold given_port. now intros ->. Qed.

Lemma agent_ports_first_defined (own dflt : option PortValue) :
  (if port_truthy own then option_map Number own
   else if port_truthy dflt then option_map Number dflt else None)
  = first_defined [given_port own; given_port dflt].
Proof.
  cbn [first_defined]. unfold given_port.
  destruct (port_truthy own) eqn:Ho.
  - destruct own; [reflexivity | discriminate].
  - destruct (port_truthy dflt) eqn:Hd; [|reflexivity].
    destruct dflt; [reflexivity | discriminate].
Qed.

(** The nested tests of [getPortByRequestOptions] pick the first candidate
    that is defined. *)
Lemma getPort_first_defined (options : ResolvedRequestOptions) :
  getPortByRequestOptions options = first_defined (port_candidates options).
Proof.
  unfold getPortByRequestOptions, port_candidates, explicit_port,
    port_in_hostname.
  rewrite agent_own_port_field, agent_default_port_field.
  cbv zeta. rewrite agent_ports_first_defined.
  cbn [first_defined].
  destruct (port_truthy (port options)) eqn:Hp.
  - destruct (port_truthy_given _ Hp) as [v [-> ->]]. reflexivity.
  - rewrite (port_falsy_given _ Hp).
    destruct (hostname options) as [h|]; [|reflexivity].
    now destruct (JsString.match_colon_digits h).
Qed.

Lemma getProtocol_first_defined (options : ResolvedRequestOptions) :
  getProtocolByRequestOptions options
  = match first_defined (protocol_candidates options) with
    | Some p => p
    | None => DEFAULT_PROTOCOL
    end.
Proof.
  unfold getProtocolByRequestOptions, protocol_candidates,
    explicit_protocol, secure_protocol, uri_protocol.
  rewrite agent_hint_protocol_field, getPort_first_defined.
  cbn [first_defined].
  destruct (JsString.when_truthy (protocol options)); [reflexivity|].
  destruct (JsString.when_truthy (agent_field _ _)); [reflexivity|].
  destruct (cert_truthy (cert options) || is_SSL_PORT _); [reflexivity|].
  unfold JsString.or_else.
  destruct (uri options) as [u|]; [|reflexivity].
  cbn [option_map]. now destruct (JsString.when_truthy (Some (URL_protocol u))).
Qed.

Lemma getUrl_final_input (options : ResolvedRequestOptions) :
  getUrlByRequestOptions options = construct_URL (final_input options).
Proof.
  unfold getUrlByRequestOptions, final_input.
  now destruct (uri options).
Qed.

Lemma construct_URL_Throw (input : string) (e : Exception) :
  construct_URL input = Throw e <->
  URL_new input = None /\ e = UrlConstructionError input.
Proof.
  unfold construct_URL. destruct (URL_new input); split.
  - discriminate.
  - now intros [? _].
  - now intros [= <-].
  - now intros [_ ->].
Qed.

Lemma getHostname_raw (h : string) (p : number) :
  isRawIPv6Address h = true ->
  getHostname h (Some p) = "[" ++ h ++ "]:" ++ NumberToString p.
Proof. unfold getHostname. now intros ->. Qed.

(** C2. When the option bag carries a pre-built [uri], the resolver builds
    its result from that URI's [href] alone, whatever the other fields hold:
    two bags with the same [uri] resolve alike.  The result is that URI,
    with the same [href]: [uri] is an instance of the host's [URL] class,
    and the host parses the [href] of an instance back to that instance. *)
Theorem uri_is_returned_verbatim
  (options : ResolvedRequestOptions) (u : URL) :
  uri options = Some u ->
  getUrlByRequestOptions options = construct_URL (URL_href u)
  /\ (forall others : ResolvedRequestOptions,
        uri others = Some u ->
        getUrlByRequestOptions others = getUrlByRequestOptions options)
  /\ ((forall input v, URL_new input = Some v ->
                       URL_new (URL_href v) = Some v) ->
      (exists input, URL_new input = Some u) ->
      getUrlByRequestOptions options = Return u
      /\ forall r, getUrlByRequestOptions options = Return r ->
                   URL_href r = URL_href u).
Proof.
  intros Huri.
  assert (H : forall o, uri o = Some u ->
                        getUrlByRequestOptions o = construct_URL (URL_href u)).
  { intros o Ho. unfold getUrlByRequestOptions. now rewrite Ho. }
  split; [now apply H|]. split.
  - intros others Ho. now rewrite (H others Ho), (H options Huri).
  - intros reparse [input Hu].
    assert (R : getUrlByRequestOptions options = Return u).
    { rewrite (H options Huri). unfold construct_URL.
      now rewrite (reparse input u Hu). }
    split; [exact R|].
    intros r Hr. rewrite R in Hr. now injection Hr as <-.
Qed.

(** C3. A host that contains a colon and neither starts with an opening
    bracket nor ends with a closing one ([isRawIPv6Address]) is rendered,
    with any resolved port, between brackets and followed by a colon and the
    port; this is the hostname that goes into the string the URL is built
    from.  Host [::1] with a port that prints as 8080 gives [[::1]:8080]. *)
Theorem raw_ipv6_host_is_bracketed :
  (forall (h : string) (p : number),
      JsString.includes ":" h = true ->
      JsString.startsWith "[" h = false ->
      JsString.endsWith "]" h = false ->
      getHostname h (Some p) = "[" ++ h ++ "]:" ++ NumberToString p)
  /\ (forall (options : ResolvedRequestOptions) (p : number),
        uri options = None ->
        isRawIPv6Address (getHostByRequestOptions options) = true ->
        getPortByRequestOptions options = Some p ->
        getUrlByRequestOptions options
        = construct_URL
            (getProtocolByRequestOptions options ++ "//"
             ++ authString (getAuthByRequestOptions options)
             ++ ("[" ++ getHostByRequestOptions options ++ "]:"
                 ++ NumberToString p)
             ++ JsString.or_else (path options) DEFAULT_PATH))
  /\ (forall p : number,
        NumberToString p = "8080" ->
        getHostname "::1" (Some p) = "[::1]:8080").
Proof.
  split; [|split].
  - intros h p Hc Hs He. apply getHostname_raw.
    unfold isRawIPv6Address. now rewrite Hc, Hs, He.
  - intros options p Huri Hraw Hp.
    rewrite getUrl_final_input. unfold final_input.
    now rewrite Huri, Hp, (getHostname_raw _ p Hraw).
  - intros p Hp. rewrite getHostname_raw by reflexivity. now rewrite Hp.
Qed.

(** C4. The resolved port is the first that is defined among: the explicit
    [port] field, the port embedded in a [host:port]-shaped [hostname], the
    agent's own port, the agent's default port; a port field is explicit
    when it is truthy, and then it wins whatever the other fields hold.
    When none of the four is defined the port is left undefined; a port that
    is returned is one of these four, never a value of the resolver's
    own. *)
Theorem port_follows_precedence (options : ResolvedRequestOptions) :
  getPortByRequestOptions options = first_defined (port_candidates options)
  /\ (forall v, port options = Some v -> port_truthy (Some v) = true ->
                getPortByRequestOptions options = Some (Number v))
  /\ (getPortByRequestOptions options = None <->
      explicit_port options = None /\ port_in_hostname options = None /\
      agent_own_port options = None /\ agent_default_port options = None)
  /\ (forall p, getPortByRequestOptions options = Some p ->
                In (Some p) (port_candidates options))
  /\ (forall h digits,
        hostname options = Some h ->
        (JsString.match_colon_digits h = Some digits <->
         JsString.digits_to_end digits = true /\
         exists pre, h = pre ++ ":" ++ digits)).
Proof.
  rewrite getPort_first_defined. unfold port_candidates.
  split; [reflexivity|]. split; [|split; [|split]].
  - intros v Hv Ht. cbn [first_defined]. unfold explicit_port, given_port.
    now rewrite Hv, Ht.
  - cbn [first_defined].
    destruct (explicit_port options), (port_in_hostname options),
      (agent_own_port options), (agent_default_port options);
      split; try discriminate; try tauto;
      intros (? & ? & ? & ?); discriminate.
  - intros p. cbn [first_defined In].
    destruct (explicit_port options); [intros [= ->]; tauto|].
    destruct (port_in_hostname options); [intros [= ->]; tauto|].
    destruct (agent_own_port options); [intros [= ->]; tauto|].
    destruct (agent_default_port options); [intros [= ->]; tauto|].
    discriminate.
  - intros h digits _. split.
    + apply JsStringFacts.match_colon_digits_shape.
    + intros [Hd [pre ->]].
      now apply JsStringFacts.match_colon_digits_app.
Qed.

(** C5. The resolved protocol is the first that is defined among: the
    explicit [protocol] field (a non-empty string, which then wins whatever
    the other fields hold), the protocol of the agent, [https:] when a
    certificate option is present or the resolved port is 443, the protocol
    of the pre-built URI; and [http:] when none is. *)
Theorem protocol_follows_precedence (options : ResolvedRequestOptions) :
  getProtocolByRequestOptions options
  = match first_defined (protocol_candidates options) with
    | Some p => p
    | None => "http:"
    end
  /\ (forall p, protocol options = Some p -> JsString.truthy p = true ->
                getProtocolByRequestOptions options = p)
  /\ secure_protocol options
     = (if cert_truthy (cert options)
           || is_SSL_PORT (getPortByRequestOptions options)
        then Some "https:" else None).
Proof.
  split; [|split].
  - apply getProtocol_first_defined.
  - intros p Hp Ht. unfold getProtocolByRequestOptions.
    rewrite Hp. cbn [JsString.when_truthy]. now rewrite Ht.
  - unfold secure_protocol. now rewrite getPort_first_defined.
Qed.

(** C6. Resolution is total: every option bag, the empty one included,
    leads to exactly one call of the [URL] constructor, on [final_input];
    the resolver throws exactly when that constructor rejects this string,
    and what it throws is the construction error for it.  The empty bag
    resolves to the URL of [http://localhost/]. *)
Theorem resolution_fails_only_on_invalid_url :
  (forall options : ResolvedRequestOptions,
      getUrlByRequestOptions options = construct_URL (final_input options))
  /\ (forall (options : ResolvedRequestOptions) (e : Exception),
        getUrlByRequestOptions options = Throw e <->
        URL_new (final_input options) = None
        /\ e = UrlConstructionError (final_input options))
  /\ (forall (options : ResolvedRequestOptions) (u : URL),
        URL_new (final_input options) = Some u ->
        getUrlByRequestOptions options = Return u)
  /\ final_input no_options = "http://localhost/"
  /\ (forall u : URL,
        URL_new "http://localhost/" = Some u ->
        getUrlByRequestOptions no_options = Return u).
Proof.
  split; [exact getUrl_final_input|]. split; [|split; [|split]].
  - intros options e. rewrite getUrl_final_input. apply construct_URL_Throw.
  - intros options u Hu. rewrite getUrl_final_input.
    unfold construct_URL. now rewrite Hu.
  - reflexivity.
  - intros u Hu. rewrite getUrl_final_input.
    change (final_input no_options) with "http://localhost/".
    unfold construct_URL. now rewrite Hu.
Qed.

(** C10. With no explicit port, a [hostname] that ends in a colon and one
    or more digits has these digits read as the port and removed, with the
    colon, from the host, also when the hostname is an IPv6 literal without
    brackets: hostname [::1] gives the host [:] and the port [Number("1")]. *)
Theorem hostname_trailing_digits_are_the_port :
  (forall (options : ResolvedRequestOptions) (pre digits : string),
      port_truthy (port options) = false ->
      hostname options = Some (pre ++ ":" ++ digits) ->
      JsString.digits_to_end digits = true ->
      getPortByRequestOptions options = Some (StringToNumber digits)
      /\ getHostByRequestOptions options = pre)
  /\ (forall options : ResolvedRequestOptions,
        port options = None ->
        hostname options = Some "::1" ->
        getPortByRequestOptions options = Some (StringToNumber "1")
        /\ getHostByRequestOptions options = ":"
        /\ getHostname (getHostByRequestOptions options)
                       (getPortByRequestOptions options)
           = "[:]:" ++ NumberToString (StringToNumber "1")).
Proof.
  assert (G : forall options pre digits,
             port_truthy (port options) = false ->
             hostname options = Some (pre ++ ":" ++ digits) ->
             JsString.digits_to_end digits = true ->
             getPortByRequestOptions options = Some (StringToNumber digits)
             /\ getHostByRequestOptions options = pre).
  { intros options pre digits Hp Hh Hd. split.
    - unfold getPortByRequestOptions. rewrite Hp, Hh.
      change (pre ++ ":" ++ digits)
        with (pre ++ String JsString.colon digits).
      now rewrite JsStringFacts.match_colon_digits_app.
    - unfold getHostByRequestOptions. rewrite Hh.
      now apply JsStringFacts.replace_colon_digits_app. }
  split; [exact G|].
  intros options Hp Hh.
  destruct (G options ":" "1") as [H1 H2];
    [now rewrite Hp | exact Hh | reflexivity |].
  rewrite H1, H2. repeat split; reflexivity.
Qed.

End ResolverFacts.

(** ** The request lifecycle *)

Section LifecycleFacts.

Context {js : JsHost}.

Lemma respondWith_frame (d : ResponseDescriptor) (c : Controller) :
  frame (respondWith d c) = frame c.
Proof.
  unfold frame, respondWith. destruct (state c) eqn:Hs, (outcome c) eqn:Ho; simpl; rewrite ?Hs; try reflexivity.
Qed.

Lemma respondWith_outside (d : ResponseDescriptor) (c : Controller) :
  state c <> INSPECTING -> respondWith d c = c.
Proof.
  unfold respondWith. destruct (state c); try reflexivity. now intros [].
Qed.

Lemma respondWith_recorded (d d' : ResponseDescriptor) (c : Controller) :
  outcome c = Mocked d -> respondWith d' c = c.
Proof.
  unfold respondWith. intros ->. now destruct (state c).
Qed.

Lemma respondWith_first (d : ResponseDescriptor) (c : Controller) :
  state c = INSPECTING -> outcome c = Passthrough ->
  outcome (respondWith d c) = Mocked d.
Proof. unfold respondWith. now intros -> ->. Qed.

Lemma respondWith_all_recorded (ds : list ResponseDescriptor)
  (d : ResponseDescriptor) (c : Controller) :
  outcome c = Mocked d -> fold_left (fun c d => respondWith d c) ds c = c.
Proof.
  intros H. induction ds as [|d' ds IH]; simpl; [reflexivity|].
  now rewrite (respondWith_recorded d d' c H).
Qed.

Lemma respondWith_all_frame (ds : list ResponseDescriptor) (c : Controller) :
  frame (fold_left (fun c d => respondWith d c) ds c) = frame c.
Proof.
  revert c. induction ds as [|d ds IH]; intros c; simpl; [reflexivity|].
  now rewrite IH, respondWith_frame.
Qed.

Lemma respondWith_all_outside (ds : list ResponseDescriptor)
  (c : Controller) :
  state c <> INSPECTING -> fold_left (fun c d => respondWith d c) ds c = c.
Proof.
  intros H. induction ds as [|d ds IH]; simpl; [reflexivity|].
  now rewrite (respondWith_outside d c H).
Qed.

Lemma emit_frame (listeners : list Listener) (c : Controller) :
  frame (fst (emit listeners c)) = frame c.
Proof.
  revert c. induction listeners as [|l ls IH]; intros c; simpl.
  - reflexivity.
  - specialize (IH (react l c)). destruct (emit ls (react l c)) as [c' f].
    simpl in *. rewrite IH. apply respondWith_all_frame.
Qed.

Lemma emit_outside (listeners : list Listener) (c : Controller) :
  state c <> INSPECTING -> fst (emit listeners c) = c.
Proof.
  intros H. induction listeners as [|l ls IH]; simpl; [reflexivity|].
  unfold react. rewrite (respondWith_all_outside _ c H).
  now destruct (emit ls c).
Qed.

Lemma write_request (chunk : string) (c : Controller) :
  request (write chunk c) = request c.
Proof. unfold request, write. now destruct (state c). Qed.

Lemma write_buffering (chunk : string) (c : Controller) :
  buffering c ->
  buffering (write chunk c) /\ chunks (write chunk c) = (chunks c ++ [chunk])%list.
Proof.
  unfold buffering, write. intros [H|H]; rewrite H; simpl; auto.
Qed.

Lemma write_outside (chunk : string) (c : Controller) :
  ~ buffering c -> write chunk c = c.
Proof.
  unfold buffering, write. destruct (state c); tauto.
Qed.

Lemma writes_buffering (writes : list string) (c : Controller) :
  buffering c ->
  let c' := fold_left (fun c chunk => write chunk c) writes c in
  buffering c' /\ chunks c' = (chunks c ++ writes)%list /\ request c' = request c.
Proof.
  revert c. induction writes as [|w ws IH]; intros c Hc; simpl.
  - now rewrite app_nil_r.
  - destruct (write_buffering w c Hc) as [Hb Hchunks].
    destruct (IH (write w c) Hb) as (Hb' & Hc' & Hr').
    split; [exact Hb'|]. split.
    + rewrite Hc', Hchunks, <- app_assoc. reflexivity.
    + now rewrite Hr', write_request.
Qed.

Lemma writes_outside (writes : list string) (c : Controller) :
  ~ buffering c -> fold_left (fun c chunk => write chunk c) writes c = c.
Proof.
  intros H. induction writes as [|w ws IH]; simpl; [reflexivity|].
  now rewrite (write_outside w c H).
Qed.

Lemma end_buffering (finalChunk : option string) (c : Controller) :
  buffering c ->
  state (end_ finalChunk c) = INSPECTING
  /\ chunks (end_ finalChunk c) = (chunks c ++ final_chunks finalChunk)%list
  /\ request (end_ finalChunk c) = request c.
Proof.
  unfold buffering, end_. intros [H|H]; rewrite H; simpl; auto.
Qed.

Lemma ended_resolved (m : string) (h : Headers)
  (options : ResolvedRequestOptions) (writes : list string)
  (finalChunk : option string) (u : URL) :
  getUrlByRequestOptions options = Return u ->
  let c := ended m h options writes finalChunk in
  awaiting u m h (writes ++ final_chunks finalChunk)%list c
  /\ outcome c = Passthrough.
Proof.
  intros Hu. unfold ended, awaiting.
  set (c0 := create m h options).
  assert (H0 : buffering c0 /\ chunks c0 = [] /\
               request c0 = (Some u, m, h, Passthrough, [], [])).
  { unfold c0, create, buffering. rewrite Hu. simpl. auto. }
  destruct H0 as (Hb0 & Hc0 & Hr0).
  destruct (writes_buffering writes c0 Hb0) as (Hb1 & Hc1 & Hr1).
  set (c1 := fold_left _ writes c0) in *.
  destruct (end_buffering finalChunk c1 Hb1) as (Hs2 & Hc2 & Hr2).
  set (c2 := end_ finalChunk c1) in *.
  rewrite Hr1, Hr0 in Hr2. rewrite Hc1, Hc0 in Hc2. simpl in Hc2.
  unfold request in Hr2.
  injection Hr2 as R1 R2 R3 R4 R5 R6.
  repeat split; assumption.
Qed.

Lemma inspected_resolved (m : string) (h : Headers)
  (options : ResolvedRequestOptions) (writes : list string)
  (finalChunk : option string) (listeners : list Listener) (u : URL) :
  getUrlByRequestOptions options = Return u ->
  awaiting u m h (writes ++ final_chunks finalChunk)%list
    (inspected m h options writes finalChunk listeners).
Proof.
  intros Hu. unfold inspected.
  destruct (ended_resolved m h options writes finalChunk u Hu) as [Ha _].
  pose proof (emit_frame listeners (ended m h options writes finalChunk))
    as Hf.
  unfold awaiting in *. unfold frame in Hf.
  injection Hf as H1 H2 H3 H4 H5 H6 H7 _ _.
  destruct Ha as (A1 & A2 & A3 & A4 & A5 & A6 & A7).
  repeat split; congruence.
Qed.

Lemma emit_recorded (listeners : list Listener) (c : Controller)
  (d : ResponseDescriptor) :
  outcome c = Mocked d -> fst (emit listeners c) = c.
Proof.
  intros H. induction listeners as [|l ls IH]; simpl; [reflexivity|].
  unfold react. rewrite (respondWith_all_recorded _ d c H).
  now destruct (emit ls c).
Qed.

(** The listeners run in registration order: the first call of the
    mock-setting operation made by any of them is the one recorded. *)
Lemma first_caller_installs (before after : list Listener) (l : Listener)
  (c : Controller) (d : ResponseDescriptor) (ds : list ResponseDescriptor) :
  state c = INSPECTING -> outcome c = Passthrough ->
  Forall (fun silent : Listener => calls (silent c) = []) before ->
  calls (l c) = d :: ds ->
  outcome (fst (emit (before ++ l :: after) c)) = Mocked d.
Proof.
  intros Hs Ho Hsilent Hcalls.
  induction Hsilent as [|silent before Hnil _ IH]; simpl.
  - assert (Hr : react l c = respondWith d c).
    { unfold react. rewrite Hcalls. simpl.
      apply (respondWith_all_recorded ds d).
      now apply respondWith_first. }
    rewrite Hr.
    pose proof (emit_recorded after (respondWith d c) d
                  (respondWith_first d c Hs Ho)) as He.
    destruct (emit after (respondWith d c)) as [c' f]. simpl in *.
    rewrite He. now apply respondWith_first.
  - unfold react at 1. rewrite Hnil. simpl.
    now destruct (emit (before ++ l :: after) c).
Qed.

(** A request whose URL resolved and one of whose listeners calls the
    mock-setting operation, the listeners before it making no call, ends its
    inspection with the first descriptor of that listener recorded. *)
Lemma listener_installs_mock (m : string) (h : Headers)
  (options : ResolvedRequestOptions) (writes : list string)
  (finalChunk : option string) (before after : list Listener)
  (l : Listener) (u : URL) (d : ResponseDescriptor)
  (ds : list ResponseDescriptor) :
  getUrlByRequestOptions options = Return u ->
  let c := ended m h options writes finalChunk in
  Forall (fun silent : Listener => calls (silent c) = []) before ->
  calls (l c) = d :: ds ->
  outcome (inspected m h options writes finalChunk (before ++ l :: after))
  = Mocked d.
Proof.
  intros Hu c Hsilent Hcalls. unfold inspected. fold c.
  destruct (ended_resolved m h options writes finalChunk u Hu)
    as [(Hs & _) Ho].
  now apply (first_caller_installs before after l c d ds).
Qed.

Lemma inspected_unresolved (m : string) (h : Headers)
  (options : ResolvedRequestOptions) (writes : list string)
  (finalChunk : option string) (listeners : list Listener) (e : Exception) :
  getUrlByRequestOptions options = Throw e ->
  inspected m h options writes finalChunk listeners
  = {| state := ERRORED; url := None; method := m; headers := h;
       chunks := []; outcome := Passthrough;
       events := [error (UrlConstruction e)]; transport_calls := [];
       finished := false; writableEnded := false |}.
Proof.
  intros He. unfold inspected, ended, create. rewrite He.
  rewrite writes_outside by (unfold buffering; simpl; intuition discriminate).
  unfold end_ at 1. cbn [state].
  now rewrite emit_outside.
Qed.

(** The three ways a request concludes. *)
Lemma perform_mocked (m : string) (h : Headers)
  (options : ResolvedRequestOptions) (writes : list string)
  (finalChunk : option string) (listeners : list Listener)
  (transport : Transport) (d : ResponseDescriptor) :
  outcome (inspected m h options writes finalChunk listeners) = Mocked d ->
  let r := perform m h options writes finalChunk listeners transport in
  state r = RESPONDED /\ events r = [response (synthesize d)]
  /\ transport_calls r = [].
Proof.
  intros Ho. unfold perform.
  destruct (getUrlByRequestOptions options) as [u|e] eqn:Hu.
  - destruct (inspected_resolved m h options writes finalChunk listeners u Hu)
      as (Hs & _ & _ & _ & _ & He & Ht).
    set (c := inspected _ _ _ _ _ _) in *.
    unfold settle. rewrite Hs, Ho. unfold conclude, deliver. simpl.
    now rewrite He, Ht.
  - rewrite (inspected_unresolved m h options writes finalChunk listeners e Hu)
      in Ho.
    discriminate.
Qed.

Lemma perform_passthrough (m : string) (h : Headers)
  (options : ResolvedRequestOptions) (writes : list string)
  (finalChunk : option string) (listeners : list Listener)
  (transport : Transport) (u : URL) :
  getUrlByRequestOptions options = Return u ->
  outcome (inspected m h options writes finalChunk listeners) = Passthrough ->
  let r := perform m h options writes finalChunk listeners transport in
  let sent := {| transport_url := u; transport_method := m;
                 transport_headers := h;
                 transport_body := (writes ++ final_chunks finalChunk)%list |} in
  transport_calls r = [sent]
  /\ match transport sent with
     | Responds msg => state r = RESPONDED /\ events r = [response msg]
     | Fails e => state r = ERRORED /\ events r = [error (TransportError e)]
     end.
Proof.
  intros Hu Ho. unfold perform.
  destruct (inspected_resolved m h options writes finalChunk listeners u Hu)
    as (Hs & Hurl & Hm & Hh & Hc & He & Ht).
  set (c := inspected _ _ _ _ _ _) in *.
  unfold settle. rewrite Hs, Ho, Hurl. unfold conclude. simpl.
  rewrite Ht, Hm, Hh, Hc. simpl. unfold relay. simpl.
  destruct (transport _); simpl; now rewrite He.
Qed.

Lemma perform_unresolved (m : string) (h : Headers)
  (options : ResolvedRequestOptions) (writes : list string)
  (finalChunk : option string) (listeners : list Listener)
  (transport : Transport) (e : Exception) :
  getUrlByRequestOptions options = Throw e ->
  let r := perform m h options writes finalChunk listeners transport in
  state r = ERRORED /\ events r = [error (UrlConstruction e)]
  /\ transport_calls r = [].
Proof.
  intros He. unfold perform.
  now rewrite (inspected_unresolved m h options writes finalChunk listeners e He).
Qed.

Lemma drain_cons (chunk : string) (stream : list string) :
  drain (chunk :: stream) = chunk ++ drain stream.
Proof.
  unfold drain. destruct stream as [|next stream]; simpl.
  - now rewrite JsStringFacts.append_empty_r.
  - reflexivity.
Qed.

Lemma drain_app (a b : list string) :
  drain (a ++ b) = drain a ++ drain b.
Proof.
  induction a as [|chunk a IH].
  - reflexivity.
  - change ((chunk :: a) ++ b)%list with (chunk :: (a ++ b))%list.
    now rewrite !drain_cons, IH, JsStringFacts.append_assoc.
Qed.

Lemma create_events_match_state (m : string) (h : Headers)
  (options : ResolvedRequestOptions) :
  events_match_state (create m h options).
Proof.
  unfold events_match_state, create.
  destruct (getUrlByRequestOptions options); simpl; eauto.
Qed.

Lemma step_events_match_state (c : Controller) (a : Action) :
  events_match_state c -> events_match_state (step c a).
Proof.
  unfold events_match_state.
  destruct a as [chunk|finalChunk|d| | |r]; simpl.
  - unfold write. destruct (state c) eqn:Hs; simpl; rewrite ?Hs; auto.
  - unfold end_. destruct (state c) eqn:Hs; simpl; rewrite ?Hs; auto.
  - pose proof (respondWith_frame d c) as Hf. unfold frame in Hf.
    injection Hf as -> _ _ _ _ -> _ _ _. auto.
  - unfold settle. destruct (state c) eqn:Hs; simpl; rewrite ?Hs; auto.
    intros He.
    destruct (outcome c); [|destruct (url c)]; simpl; rewrite ?Hs, ?He;
      simpl; eauto.
  - unfold deliver. destruct (state c) eqn:Hs; simpl; rewrite ?Hs; auto.
  - unfold relay. destruct (state c) eqn:Hs; simpl; rewrite ?Hs; auto.
    intros He. destruct r; simpl; rewrite He; simpl; eauto.
Qed.

Lemma run_events_match_state (actions : list Action) (c : Controller) :
  events_match_state c -> events_match_state (run actions c).
Proof.
  unfold run. revert c.
  induction actions as [|a actions IH]; intros c Hc; simpl; [exact Hc|].
  apply IH. now apply step_events_match_state.
Qed.

Lemma step_terminal (c : Controller) (a : Action) :
  terminal (state c) = true -> step c a = c.
Proof.
  destruct a; simpl;
    unfold write, end_, respondWith, settle, deliver, relay;
    destruct (state c); simpl; try discriminate; reflexivity.
Qed.

Lemma step_after_event (c : Controller) (a : Action) :
  events_match_state c -> events c <> [] -> events (step c a) = events c.
Proof.
  unfold events_match_state. intros Hc Hne.
  destruct a as [chunk|finalChunk|d| | |r]; simpl.
  - pose proof (write_request chunk c) as Hr. unfold request in Hr.
    now injection Hr.
  - unfold end_. now destruct (state c).
  - pose proof (respondWith_frame d c) as Hf. unfold frame in Hf.
    now injection Hf.
  - unfold settle. destruct (state c); try reflexivity. contradiction.
  - unfold deliver. now destruct (state c).
  - unfold relay. destruct (state c); try reflexivity. contradiction.
Qed.

(** C1. When the inspection of a request ends with a mocked response
    recorded, the request concludes without any use of the real transport
    and without any error event: its one event is a response whose status,
    headers and body are those of the recorded ResponseDescriptor. *)
Theorem mocked_request_bypasses_transport (m : string) (h : Headers)
  (options : ResolvedRequestOptions) (writes : list string)
  (finalChunk : option string) (listeners : list Listener)
  (transport : Transport) (d : ResponseDescriptor) :
  outcome (inspected m h options writes finalChunk listeners) = Mocked d ->
  let r := perform m h options writes finalChunk listeners transport in
  transport_calls r = []
  /\ (forall e, ~ In (error e) (events r))
  /\ exists msg,
       events r = [response msg]
       /\ statusCode msg = status d
       /\ statusMessage msg = statusText d
       /\ message_headers msg = response_headers d
       /\ drain (message_body msg) = body_bytes (body d).
Proof.
  intros Ho r.
  destruct (perform_mocked m h options writes finalChunk listeners transport
              d Ho) as (_ & He & Ht).
  fold r in He, Ht. split; [exact Ht|]. split.
  - intros e. rewrite He. simpl. intros [H|[]]. discriminate.
  - exists (synthesize d). split; [exact He|].
    repeat split. unfold synthesize, body_bytes, drain. simpl.
    now destruct (body d).
Qed.

(** C7. When the inspection of a request ends with no mock recorded, the
    real transport is opened once and receives the buffered chunks in the
    order they were written, the final chunk of [end] last; read to its
    end, what it receives is the concatenation of the writes.  Writes
    [one], [two] and [end(three)] give [onetwothree]. *)
Theorem passthrough_replays_body_in_order (m : string) (h : Headers)
  (options : ResolvedRequestOptions) (writes : list string)
  (finalChunk : option string) (listeners : list Listener)
  (transport : Transport) (u : URL) :
  getUrlByRequestOptions options = Return u ->
  outcome (inspected m h options writes finalChunk listeners) = Passthrough ->
  let r := perform m h options writes finalChunk listeners transport in
  (exists sent,
      transport_calls r = [sent]
      /\ transport_url sent = u
      /\ transport_body sent = (writes ++ final_chunks finalChunk)%list
      /\ drain (transport_body sent)
         = drain writes ++ drain (final_chunks finalChunk))
  /\ (writes = ["one"; "two"] -> finalChunk = Some "three" ->
      map (fun sent => drain (transport_body sent)) (transport_calls r)
      = ["onetwothree"]).
Proof.
  intros Hu Ho r.
  destruct (perform_passthrough m h options writes finalChunk listeners
              transport u Hu Ho) as (Ht & _).
  fold r in Ht. split.
  - eexists. split; [exact Ht|]. repeat split. simpl. apply drain_app.
  - intros -> ->. now rewrite Ht.
Qed.

(** C8. Every request concludes with exactly one event, a response or an
    error, in a terminal state.  Whatever happens to a controller and in
    whatever order, it never has emitted more than one event; once it has
    emitted one, no step emits another; and a terminal state is left by no
    step. *)
Theorem exactly_one_terminal_event :
  (forall (m : string) (h : Headers) (options : ResolvedRequestOptions)
          (writes : list string) (finalChunk : option string)
          (listeners : list Listener) (transport : Transport),
      let r := perform m h options writes finalChunk listeners transport in
      terminal (state r) = true
      /\ ((exists msg, events r = [response msg])
          \/ (exists e, events r = [error e])))
  /\ (forall (m : string) (h : Headers) (options : ResolvedRequestOptions)
             (actions : list Action),
        (length (events (run actions (create m h options))) <= 1)%nat)
  /\ (forall (m : string) (h : Headers) (options : ResolvedRequestOptions)
             (actions : list Action) (a : Action),
        let c := run actions (create m h options) in
        events c <> [] -> events (step c a) = events c)
  /\ (forall (c : Controller) (a : Action),
        terminal (state c) = true -> step c a = c).
Proof.
  split; [|split; [|split]].
  - intros m h options writes finalChunk listeners transport r.
    destruct (getUrlByRequestOptions options) as [u|e] eqn:Hu.
    + destruct (outcome (inspected m h options writes finalChunk listeners))
        as [d|] eqn:Ho.
      * destruct (perform_mocked m h options writes finalChunk listeners
                    transport d Ho) as (Hs & He & _).
        fold r in Hs, He. rewrite Hs. split; [reflexivity|]. left. eauto.
      * destruct (perform_passthrough m h options writes finalChunk listeners
                    transport u Hu Ho) as (_ & H).
        fold r in H. destruct (transport _) as [msg|e];
          destruct H as [Hs He]; rewrite Hs; split; eauto.
    + destruct (perform_unresolved m h options writes finalChunk listeners
                  transport e Hu) as (Hs & He & _).
      fold r in Hs, He. rewrite Hs. split; [reflexivity|]. right. eauto.
  - intros m h options actions.
    pose proof (run_events_match_state actions _
                  (create_events_match_state m h options)) as H.
    unfold events_match_state in H.
    destruct (state (run actions (create m h options)));
      try (rewrite H; simpl; lia); destruct H as [ev ->]; simpl; lia.
  - intros m h options actions a c. apply step_after_event.
    apply run_events_match_state, create_events_match_state.
  - exact step_terminal.
Qed.

(** C9. In the inspection of a request the first call of the mock-setting
    operation records its descriptor, and the calls that follow it change
    nothing; outside [INSPECTING] no call changes anything. *)
Theorem respondWith_first_call_wins :
  (forall (c : Controller) (first second : ResponseDescriptor),
      state c = INSPECTING -> outcome c = Passthrough ->
      outcome (respondWith first c) = Mocked first
      /\ respondWith second (respondWith first c) = respondWith first c)
  /\ (forall (c : Controller) (first : ResponseDescriptor)
             (later : list ResponseDescriptor),
        state c = INSPECTING -> outcome c = Passthrough ->
        fold_left (fun c d => respondWith d c) (first :: later) c
        = respondWith first c)
  /\ (forall (c : Controller) (d : ResponseDescriptor),
        state c <> INSPECTING -> respondWith d c = c).
Proof.
  split; [|split].
  - intros c first second Hs Ho.
    pose proof (respondWith_first first c Hs Ho) as H1.
    split; [exact H1|]. now apply (respondWith_recorded first).
  - intros c first later Hs Ho. simpl.
    apply (respondWith_all_recorded later first).
    now apply respondWith_first.
  - intros c d. apply respondWith_outside.
Qed.

End LifecycleFacts.

(** ** The statements at sample requests *)

Module SampleFacts.
Import RefHost Samples.

Lemma ref_host_reparse (input : string) (u : RefURL) :
  ref_URL_new input = Some u -> ref_URL_new (ref_href u) = Some u.
Proof.
  intros H. assert (E : ref_href u = input).
  { unfold ref_URL_new in H. destruct (span_alpha input) as [scheme tail].
    destruct scheme as [|c scheme]; [discriminate|].
    destruct tail as [|[[] [] [] [] [] [] [] []] tail]; try discriminate.
    destruct tail as [|[[] [] [] [] [] [] [] []] tail]; try discriminate.
    destruct tail as [|[[] [] [] [] [] [] [] []] tail]; try discriminate.
    destruct tail as [|a tail]; try discriminate.
    destruct (Ascii.eqb a "/"); [discriminate|].
    now injection H as <-. }
  now rewrite E.
Defined.

(** The pre-built URI is returned although every other field points
    elsewhere. *)
Lemma uri_is_returned_verbatim_at_sample :
  getUrlByRequestOptions with_uri = Return example_uri.
Proof.
  destruct (uri_is_returned_verbatim (js := ref_host) with_uri example_uri)
    as (_ & _ & Hsame).
  - reflexivity.
  - apply Hsame.
    + exact ref_host_reparse.
    + exists "http://example.com/". reflexivity.
Defined.

(** Host [::1] with port 8080. *)
Lemma raw_ipv6_host_is_bracketed_at_sample :
  getHostname "::1" (Some (Int 8080)) = "[::1]:8080"
  /\ getUrlByRequestOptions ipv6_with_port
     = construct_URL "http://[::1]:8080/".
Proof.
  destruct (raw_ipv6_host_is_bracketed (js := ref_host)) as (_ & Hurl & Hex).
  split.
  - apply Hex. reflexivity.
  - apply (Hurl ipv6_with_port (Int 8080)); reflexivity.
Defined.

(** The port in the hostname precedes the default port of the agent. *)
Lemma port_follows_precedence_at_sample :
  getPortByRequestOptions port_in_the_hostname = Some (Int 8080)
  /\ JsString.match_colon_digits "example.com:8080" = Some "8080".
Proof.
  destruct (port_follows_precedence (js := ref_host) port_in_the_hostname)
    as (Hfirst & _ & _ & _ & Hshape).
  split.
  - rewrite Hfirst. reflexivity.
  - apply (Hshape "example.com:8080" "8080"); [reflexivity|].
    split; [reflexivity|]. exists "example.com". reflexivity.
Defined.

(** An explicit protocol precedes the certificate option. *)
Lemma protocol_follows_precedence_at_sample :
  getProtocolByRequestOptions explicit_http = "http:".
Proof.
  destruct (protocol_follows_precedence (js := ref_host) explicit_http)
    as (_ & Hexplicit & _).
  apply (Hexplicit "http:"); reflexivity.
Defined.

(** The protocol of some sample bags, and the URLs they resolve to. *)
Example protocol_of_samples :
  getProtocolByRequestOptions no_options = "http:"
  /\ getProtocolByRequestOptions ssl_port = "https:"
  /\ getProtocolByRequestOptions https_agent = "https:"
  /\ getProtocolByRequestOptions port_in_the_hostname = "http:"
  /\ final_input ssl_port = "https://localhost:443/"
  /\ final_input https_agent = "https://example.com:443/"
  /\ final_input port_in_the_hostname = "http://example.com:8080/".
Proof. repeat split; reflexivity. Qed.

(** The empty bag resolves; a bag whose assembled string is [http:///]
    fails with the construction error for that string. *)
Lemma resolution_fails_only_on_invalid_url_at_sample :
  getUrlByRequestOptions no_options
  = Return {| ref_href := "http://localhost/"; ref_protocol := "http:" |}
  /\ getUrlByRequestOptions empty_hostname
     = Throw (UrlConstructionError "http:///").
Proof.
  destruct (resolution_fails_only_on_invalid_url (js := ref_host))
    as (_ & Hthrow & _ & _ & Hempty).
  split.
  - apply Hempty. reflexivity.
  - apply (Hthrow empty_hostname). split; reflexivity.
Defined.

(** Hostname [::1]: host [:], port 1, rendered [[:]:1]. *)
Lemma hostname_trailing_digits_are_the_port_at_sample :
  getPortByRequestOptions ipv6_hostname = Some (Int 1)
  /\ getHostByRequestOptions ipv6_hostname = ":"
  /\ getHostname (getHostByRequestOptions ipv6_hostname)
                 (getPortByRequestOptions ipv6_hostname) = "[:]:1".
Proof.
  destruct (hostname_trailing_digits_are_the_port (js := ref_host))
    as (_ & Hex).
  destruct (Hex ipv6_hostname) as (Hport & Hhost & Hname);
    [reflexivity | reflexivity |].
  rewrite Hname. repeat split; assumption.
Defined.

(** The request to an unreachable host with a listener that installs a
    mock: one response, no use of the transport. *)
Lemma mocked_request_bypasses_transport_at_sample :
  let r := perform "GET" [] unreachable [] None [installs_works]
             no_such_host in
  transport_calls r = [] /\ forall e, ~ In (error e) (events r).
Proof.
  destruct (mocked_request_bypasses_transport (js := ref_host) "GET" [] unreachable [] None
              [installs_works] no_such_host works)
    as (Hcalls & Herr & _).
  - reflexivity.
  - split; assumption.
Defined.

(** The writes [one], [two] and [end(three)] reach the transport as
    [onetwothree]. *)
Lemma passthrough_replays_body_in_order_at_sample :
  let r := perform "POST" [("Content-Type", "text/plain")] local_write
             ["one"; "two"] (Some "three") [] echo in
  map (fun sent => drain (transport_body sent)) (transport_calls r)
  = ["onetwothree"].
Proof.
  destruct (passthrough_replays_body_in_order (js := ref_host) "POST"
              [("Content-Type", "text/plain")] local_write
              ["one"; "two"] (Some "three") [] echo
              {| ref_href := "http://127.0.0.1:3000/write";
                 ref_protocol := "http:" |})
    as (_ & Hex).
  - reflexivity.
  - reflexivity.
  - apply Hex; reflexivity.
Defined.

(** After its response a mocked request emits nothing more, whatever the
    transport is made to answer. *)
Lemma exactly_one_terminal_event_at_sample :
  let c := run [End None; RespondWith works; InspectionCompletes]
               (create "GET" [] unreachable) in
  events c = [response (synthesize works)]
  /\ events (step c (TransportAnswers (no_such_host
               {| transport_url := example_uri; transport_method := "GET";
                  transport_headers := []; transport_body := [] |})))
     = events c.
Proof.
  destruct (exactly_one_terminal_event (js := ref_host))
    as (_ & _ & Hafter & _).
  split.
  - reflexivity.
  - apply (Hafter "GET" [] unreachable
             [End None; RespondWith works; InspectionCompletes]).
    discriminate.
Defined.

(** Two calls in one inspection: the first descriptor is recorded. *)
Lemma respondWith_first_call_wins_at_sample :
  outcome (respondWith mock_created (respondWith works under_inspection))
  = Mocked works.
Proof.
  destruct (respondWith_first_call_wins (js := ref_host)) as (Htwo & _ & _).
  destruct (Htwo under_inspection works mock_created) as (Hfirst & Hsecond);
    [reflexivity | reflexivity |].
  rewrite Hsecond. exact Hfirst.
Defined.

End SampleFacts.

(** ** Edge cases of the resolver *)

Module JsStringEdgeFacts.
Import JsString.

Lemma truthy_app_cons (a b : string) (c : ascii) :
  truthy (a ++ String c b) = true.
Proof. now destruct a. Qed.

Lemma includes_app (c : ascii) (a b : string) :
  includes c (a ++ b) = includes c a || includes c b.
Proof.
  induction a as [|x a IH]; simpl; [reflexivity|].
  now rewrite IH, orb_assoc.
Qed.


Lemma split_without (c : ascii) (s : string) :
  includes c s = false -> split c s = [s].
Proof.
  induction s as [|x s IH]; simpl; [reflexivity|].
  intros H. apply orb_false_elim in H as [Hx Hs].
  now rewrite Hx, (IH Hs).
Qed.

Lemma split_at_first (c : ascii) (a b : string) :
  includes c a = false -> split c (a ++ String c b) = a :: split c b.
Proof.
  induction a as [|x a IH]; simpl.
  - intros _. now rewrite Ascii.eqb_refl.
  - intros H. apply orb_false_elim in H as [Hx Ha].
    now rewrite Hx, (IH Ha).
Qed.

Lemma endsWith_app (c x : ascii) (a b : string) :
  endsWith c (a ++ String x b) = endsWith c (String x b).
Proof.
  induction a as [|y a IH]; [reflexivity|].
  rewrite <- IH. now destruct a.
Qed.

Lemma endsWith_digits (c : ascii) (d : string) :
  is_digit c = false -> all_digits d = true -> endsWith c d = false.
Proof.
  intros Hc. induction d as [|x d IH]; [reflexivity|].
  intros Hd. change (is_digit x && all_digits d = true) in Hd.
  apply andb_prop in Hd as [Hx Hd].
  destruct d as [|y d].
  - simpl. destruct (Ascii.eqb_spec x c) as [->|_]; [congruence|reflexivity].
  - change (endsWith c (String x (String y d)))
      with (endsWith c (String y d)).
    now apply IH.
Qed.

Lemma when_truthy_is_truthy (s : option string) (x : string) :
  when_truthy s = Some x -> truthy x = true.
Proof.
  destruct s as [s|]; simpl; [|discriminate].
  destruct (truthy s) eqn:E; [|discriminate]. now intros [= <-].
Qed.

Lemma when_truthy_twice (s : option string) :
  when_truthy (when_truthy s) = when_truthy s.
Proof.
  destruct s as [s|]; simpl; [|reflexivity].
  destruct (truthy s) eqn:E; simpl; [now rewrite E | reflexivity].
Qed.

Lemma or_else_when_truthy (a : option string) (b : string) :
  or_else (when_truthy a) b = or_else a b.
Proof. unfold or_else. now rewrite when_truthy_twice. Qed.

Lemma or_else_truthy (a : option string) (b : string) :
  truthy b = true -> truthy (or_else a b) = true.
Proof.
  intros Hb. unfold or_else. destruct (when_truthy a) as [x|] eqn:E.
  - exact (when_truthy_is_truthy a x E).
  - exact Hb.
Qed.

(** No port is found in a hostname that has no colon or that ends in a
    character other than a digit. *)
Lemma no_match_without_port (h : string) :
  includes colon h = false
  \/ (exists c, is_digit c = false /\ endsWith c h = true) ->
  match_colon_digits h = None.
Proof.
  intros H. destruct (match_colon_digits h) as [d|] eqn:E; [|reflexivity].
  apply JsStringFacts.match_colon_digits_shape in E as [Hd [pre ->]].
  destruct H as [H|[c [Hc H]]].
  - rewrite includes_app in H. simpl in H.
    now rewrite orb_true_r in H.
  - rewrite endsWith_app in H. destruct d as [|x d]; [discriminate|].
    change (endsWith c (String colon (String x d)))
      with (endsWith c (String x d)) in H.
    now rewrite (endsWith_digits c (String x d) Hc Hd) in H.
Qed.

End JsStringEdgeFacts.

Section ResolverEdgeFacts.

Context {js : JsHost}.

Lemma bracketed_is_not_raw (s : string) :
  isRawIPv6Address (String "[" s) = false.
Proof.
  unfold isRawIPv6Address.
  change (JsString.startsWith "[" (String "[" s)) with true.
  now rewrite andb_false_r.
Qed.

Lemma not_raw_is_kept (h : string) (p : option number) :
  isRawIPv6Address h = false ->
  getHostname h p = h ++ match p with
                         | Some n => ":" ++ NumberToString n
                         | None => ""
                         end.
Proof.
  unfold getHostname. intros ->.
  destruct p; [reflexivity | now rewrite JsStringFacts.append_empty_r].
Qed.

(** X1. Rendering brackets a host at most once: a host that has been
    rendered without a port is rendered to itself, and adding the port to it
    afterwards gives what rendering host and port together gives. *)
Theorem getHostname_brackets_once (h : string) :
  getHostname (getHostname h None) None = getHostname h None
  /\ forall p : number,
       getHostname (getHostname h None) (Some p) = getHostname h (Some p).
Proof.
  destruct (isRawIPv6Address h) eqn:E.
  - assert (Hn : getHostname h None = String "[" (h ++ "]")).
    { unfold getHostname. now rewrite E. }
    rewrite Hn. split.
    + rewrite not_raw_is_kept by apply bracketed_is_not_raw.
      now rewrite JsStringFacts.append_empty_r.
    + intros p. rewrite not_raw_is_kept by apply bracketed_is_not_raw.
      unfold getHostname. rewrite E. simpl.
      now rewrite JsStringFacts.append_assoc.
  - rewrite (not_raw_is_kept h None E), JsStringFacts.append_empty_r.
    split; [|reflexivity].
    now rewrite (not_raw_is_kept h None E), JsStringFacts.append_empty_r.
Qed.

(** X2. A host that has no colon, or that starts with an opening bracket, or
    that ends with a closing one, is never put between brackets: it is
    rendered as it is, followed by a colon and the port when there is one. *)
Theorem host_without_raw_colon_is_kept (h : string) :
  JsString.includes ":" h = false
  \/ JsString.startsWith "[" h = true
  \/ JsString.endsWith "]" h = true ->
  getHostname h None = h
  /\ forall p : number, getHostname h (Some p) = h ++ ":" ++ NumberToString p.
Proof.
  intros H.
  assert (E : isRawIPv6Address h = false).
  { unfold isRawIPv6Address. destruct H as [->|[->| ->]].
    - reflexivity.
    - now rewrite andb_false_r.
    - now rewrite andb_false_r. }
  split.
  - now rewrite (not_raw_is_kept h None E), JsStringFacts.append_empty_r.
  - intros p. exact (not_raw_is_kept h (Some p) E).
Qed.

Lemma hostname_decomposition (options : ResolvedRequestOptions)
  (h : string) :
  hostname options = Some h ->
  match JsString.match_colon_digits h with
  | Some digits =>
      h = getHostByRequestOptions options ++ ":" ++ digits
      /\ JsString.digits_to_end digits = true
      /\ port_in_hostname options = Some (StringToNumber digits)
  | None =>
      getHostByRequestOptions options = h
      /\ port_in_hostname options = None
  end.
Proof.
  intros Hh. unfold getHostByRequestOptions, port_in_hostname. rewrite Hh.
  destruct (JsString.match_colon_digits h) as [digits|] eqn:E.
  - destruct (JsStringFacts.match_colon_digits_shape h digits E)
      as [Hd [pre ->]].
    rewrite (JsStringFacts.replace_colon_digits_app pre digits Hd).
    repeat split. exact Hd.
  - split; [|reflexivity].
    now apply JsStringFacts.replace_colon_digits_no_match.
Qed.

Lemma host_without_hostname_not_empty (options : ResolvedRequestOptions) :
  hostname options = None ->
  JsString.truthy (getHostByRequestOptions options) = true.
Proof.
  intros Hh. unfold getHostByRequestOptions. rewrite Hh.
  now apply JsStringEdgeFacts.or_else_truthy.
Qed.

(** X3. Nothing of the [hostname] is lost between the host and the port:
    either the search finds digits after a colon at its end, and the
    hostname is the resolved host, a colon and these digits, or it finds
    none and the resolved host is the hostname. *)
Theorem hostname_is_host_and_port (options : ResolvedRequestOptions)
  (h : string) :
  hostname options = Some h ->
  match JsString.match_colon_digits h with
  | Some digits =>
      h = getHostByRequestOptions options ++ ":" ++ digits
      /\ JsString.digits_to_end digits = true
      /\ port_in_hostname options = Some (StringToNumber digits)
  | None =>
      getHostByRequestOptions options = h
      /\ port_in_hostname options = None
  end.
Proof. apply hostname_decomposition. Qed.

(** X4. With no explicit port, a hostname [pre:digits] whose digits the
    host's number conversions print back unchanged is rendered as it was
    given when [pre] needs no brackets, and with [pre] between brackets
    otherwise. *)
Theorem hostname_with_port_is_rendered_back
  (options : ResolvedRequestOptions) (pre digits : string) :
  port_truthy (port options) = false ->
  hostname options = Some (pre ++ ":" ++ digits) ->
  JsString.digits_to_end digits = true ->
  NumberToString (StringToNumber digits) = digits ->
  rendered_hostname options
  = (if isRawIPv6Address pre then "[" ++ pre ++ "]" else pre)
    ++ ":" ++ digits.
Proof.
  intros Hp Hh Hd Hn. unfold rendered_hostname.
  assert (Hport : getPortByRequestOptions options
                  = Some (StringToNumber digits)).
  { unfold getPortByRequestOptions. rewrite Hp, Hh.
    change (pre ++ ":" ++ digits)
      with (pre ++ String JsString.colon digits).
    now rewrite JsStringFacts.match_colon_digits_app. }
  assert (Hhost : getHostByRequestOptions options = pre).
  { unfold getHostByRequestOptions. rewrite Hh.
    now apply JsStringFacts.replace_colon_digits_app. }
  rewrite Hport, Hhost. unfold getHostname. rewrite Hn.
  destruct (isRawIPv6Address pre); [|reflexivity].
  simpl. now rewrite JsStringFacts.append_assoc.
Qed.

Lemma getAgent_absent_when_falsy (options : ResolvedRequestOptions) :
  getAgent (absent_when_falsy options) = getAgent options.
Proof.
  unfold getAgent, absent_when_falsy. simpl.
  now destruct (getAgent options) eqn:E; unfold getAgent in E; rewrite E.
Qed.

Lemma getPort_absent_when_falsy (options : ResolvedRequestOptions) :
  getPortByRequestOptions (absent_when_falsy options)
  = getPortByRequestOptions options.
Proof.
  unfold getPortByRequestOptions.
  rewrite getAgent_absent_when_falsy. simpl.
  destruct (port_truthy (port options)) eqn:E.
  - now rewrite E.
  - reflexivity.
Qed.

Lemma getProtocol_absent_when_falsy (options : ResolvedRequestOptions) :
  getProtocolByRequestOptions (absent_when_falsy options)
  = getProtocolByRequestOptions options.
Proof.
  unfold getProtocolByRequestOptions.
  rewrite getAgent_absent_when_falsy, getPort_absent_when_falsy.
  cbn [protocol cert uri absent_when_falsy].
  rewrite JsStringEdgeFacts.when_truthy_twice.
  destruct (cert_truthy (cert options)) eqn:E; [now rewrite E|reflexivity].
Qed.

(** X5. The resolver cannot tell a falsy field from a missing one: an empty
    [protocol], [host], [path] or [auth], a port that is zero, [NaN] or the
    empty string, an empty certificate string and an [agent] that is a
    boolean give the port, protocol, host, credentials and URL that the bag
    without these fields gives. *)
Theorem falsy_fields_count_as_absent (options : ResolvedRequestOptions) :
  getPortByRequestOptions (absent_when_falsy options)
  = getPortByRequestOptions options
  /\ getProtocolByRequestOptions (absent_when_falsy options)
     = getProtocolByRequestOptions options
  /\ getHostByRequestOptions (absent_when_falsy options)
     = getHostByRequestOptions options
  /\ getAuthByRequestOptions (absent_when_falsy options)
     = getAuthByRequestOptions options
  /\ getUrlByRequestOptions (absent_when_falsy options)
     = getUrlByRequestOptions options.
Proof.
  assert (Hhost : getHostByRequestOptions (absent_when_falsy options)
                  = getHostByRequestOptions options).
  { unfold getHostByRequestOptions. cbn [hostname host absent_when_falsy].
    now rewrite JsStringEdgeFacts.or_else_when_truthy. }
  assert (Hauth : getAuthByRequestOptions (absent_when_falsy options)
                  = getAuthByRequestOptions options).
  { unfold getAuthByRequestOptions. cbn [auth absent_when_falsy].
    now rewrite JsStringEdgeFacts.when_truthy_twice. }
  split; [apply getPort_absent_when_falsy|].
  split; [apply getProtocol_absent_when_falsy|].
  split; [exact Hhost|]. split; [exact Hauth|].
  unfold getUrlByRequestOptions.
  rewrite getProtocol_absent_when_falsy, getPort_absent_when_falsy,
    Hhost, Hauth.
  cbn [uri path absent_when_falsy].
  now rewrite JsStringEdgeFacts.or_else_when_truthy.
Qed.

(** X6. The [auth] string is cut at its colons and only the first two
    pieces are used: [user:password] is rendered back followed by [@]; what
    follows a second colon is dropped; an auth without a colon is rendered
    with the password [undefined]; an absent or empty auth gives no
    credentials. *)
Theorem auth_is_split_at_colons :
  (forall (options : ResolvedRequestOptions) (user pass : string),
      auth options = Some (user ++ ":" ++ pass) ->
      JsString.includes ":" user = false ->
      JsString.includes ":" pass = false ->
      getAuthByRequestOptions options
      = Some {| username := user; password := Some pass |}
      /\ authString (getAuthByRequestOptions options)
         = user ++ ":" ++ pass ++ "@")
  /\ (forall (options : ResolvedRequestOptions) (user pass rest : string),
        auth options = Some (user ++ ":" ++ pass ++ ":" ++ rest) ->
        JsString.includes ":" user = false ->
        JsString.includes ":" pass = false ->
        authString (getAuthByRequestOptions options)
        = user ++ ":" ++ pass ++ "@")
  /\ (forall (options : ResolvedRequestOptions) (user : string),
        auth options = Some user ->
        JsString.truthy user = true ->
        JsString.includes ":" user = false ->
        authString (getAuthByRequestOptions options)
        = user ++ ":undefined@")
  /\ (forall options : ResolvedRequestOptions,
        JsString.when_truthy (auth options) = None ->
        getAuthByRequestOptions options = None
        /\ authString (getAuthByRequestOptions options) = "").
Proof.
  split; [|split; [|split]].
  - intros options user pass Ha Hu Hp.
    assert (H : getAuthByRequestOptions options
                = Some {| username := user; password := Some pass |}).
    { unfold getAuthByRequestOptions. rewrite Ha.
      cbn [JsString.when_truthy].
      change (user ++ ":" ++ pass) with (user ++ String JsString.colon pass).
      rewrite JsStringEdgeFacts.truthy_app_cons.
      now rewrite (JsStringEdgeFacts.split_at_first JsString.colon user pass Hu),
        (JsStringEdgeFacts.split_without JsString.colon pass Hp). }
    split; [exact H|]. now rewrite H.
  - intros options user pass rest Ha Hu Hp.
    unfold getAuthByRequestOptions. rewrite Ha.
    cbn [JsString.when_truthy].
    change (user ++ ":" ++ pass ++ ":" ++ rest)
      with (user ++ String JsString.colon
                      (pass ++ String JsString.colon rest)).
    rewrite JsStringEdgeFacts.truthy_app_cons.
    rewrite (JsStringEdgeFacts.split_at_first JsString.colon user _ Hu),
      (JsStringEdgeFacts.split_at_first JsString.colon pass rest Hp).
    reflexivity.
  - intros options user Ha Ht Hu.
    unfold getAuthByRequestOptions. rewrite Ha.
    cbn [JsString.when_truthy]. rewrite Ht.
    now rewrite (JsStringEdgeFacts.split_without JsString.colon user Hu).
  - intros options Ha. unfold getAuthByRequestOptions. now rewrite Ha.
Qed.

(** X7. The resolved protocol and path are never empty, and neither is the
    resolved host of a bag without [hostname]. *)
Theorem resolved_parts_are_not_empty (options : ResolvedRequestOptions) :
  JsString.truthy (getProtocolByRequestOptions options) = true
  /\ JsString.truthy (JsString.or_else (path options) DEFAULT_PATH) = true
  /\ (hostname options = None ->
      JsString.truthy (getHostByRequestOptions options) = true).
Proof.
  split; [|split].
  - unfold getProtocolByRequestOptions.
    destruct (JsString.when_truthy (protocol options)) as [p|] eqn:Ep.
    { exact (JsStringEdgeFacts.when_truthy_is_truthy _ p Ep). }
    destruct (JsString.when_truthy
                (agent_field agent_protocol (getAgent options)))
      as [p|] eqn:Ea.
    { exact (JsStringEdgeFacts.when_truthy_is_truthy _ p Ea). }
    cbv zeta.
    destruct (cert_truthy (cert options) || is_SSL_PORT _); [reflexivity|].
    now apply JsStringEdgeFacts.or_else_truthy.
  - now apply JsStringEdgeFacts.or_else_truthy.
  - apply host_without_hostname_not_empty.
Qed.

(** X8. The resolved host is empty exactly when the [hostname] field is the
    empty string or is nothing but a colon and digits. *)
Theorem resolved_host_is_empty_iff (options : ResolvedRequestOptions) :
  getHostByRequestOptions options = "" <->
  exists h, hostname options = Some h
            /\ (h = "" \/ exists digits,
                   JsString.digits_to_end digits = true
                   /\ h = ":" ++ digits).
Proof.
  split.
  - intros He. destruct (hostname options) as [h|] eqn:Hh.
    + exists h. split; [reflexivity|].
      pose proof (hostname_decomposition options h Hh) as H.
      rewrite He in H.
      destruct (JsString.match_colon_digits h) as [digits|].
      * destruct H as (-> & Hd & _). right. now exists digits.
      * destruct H as [<- _]. now left.
    + pose proof (host_without_hostname_not_empty options Hh) as H.
      now rewrite He in H.
  - intros [h [Hh [->|[digits [Hd ->]]]]];
      unfold getHostByRequestOptions; rewrite Hh.
    + reflexivity.
    + exact (JsStringFacts.replace_colon_digits_app "" digits Hd).
Qed.


(** X10. A [hostname] without a colon, or that ends in a character that is
    not a digit (the closing bracket of an IPv6 literal, for one), is the
    resolved host as it is, and gives no port. *)
Theorem hostname_without_port_is_kept
  (options : ResolvedRequestOptions) (h : string) :
  hostname options = Some h ->
  JsString.includes ":" h = false
  \/ (exists c, JsString.is_digit c = false
                /\ JsString.endsWith c h = true) ->
  getHostByRequestOptions options = h
  /\ port_in_hostname options = None.
Proof.
  intros Hh H.
  pose proof (JsStringEdgeFacts.no_match_without_port h H) as E.
  pose proof (hostname_decomposition options h Hh) as D.
  now rewrite E in D.
Qed.

(** X11. An explicit port replaces the one written in the [hostname], which
    is removed from the host all the same. *)
Theorem explicit_port_replaces_embedded_port
  (options : ResolvedRequestOptions) (v : PortValue) (pre digits : string) :
  port options = Some v ->
  port_truthy (Some v) = true ->
  hostname options = Some (pre ++ ":" ++ digits) ->
  JsString.digits_to_end digits = true ->
  getPortByRequestOptions options = Some (Number v)
  /\ getHostByRequestOptions options = pre
  /\ rendered_hostname options = getHostname pre (Some (Number v)).
Proof.
  intros Hv Ht Hh Hd.
  assert (Hport : getPortByRequestOptions options = Some (Number v)).
  { unfold getPortByRequestOptions. now rewrite Hv, Ht. }
  assert (Hhost : getHostByRequestOptions options = pre).
  { unfold getHostByRequestOptions. rewrite Hh.
    now apply JsStringFacts.replace_colon_digits_app. }
  unfold rendered_hostname. now rewrite Hport, Hhost.
Qed.

(** X12. With no protocol of its own or of its agent and no explicit port, a
    bag whose [hostname] ends in a port equal to 443 resolves to [https:]. *)
Theorem ssl_port_in_hostname_selects_https
  (options : ResolvedRequestOptions) (pre digits : string) :
  JsString.when_truthy (protocol options) = None ->
  JsString.when_truthy (agent_field agent_protocol (getAgent options))
  = None ->
  port_truthy (port options) = false ->
  hostname options = Some (pre ++ ":" ++ digits) ->
  JsString.digits_to_end digits = true ->
  number_strict_eq (StringToNumber digits) SSL_PORT = true ->
  getProtocolByRequestOptions options = "https:".
Proof.
  intros Hp Ha Hport Hh Hd Hssl.
  unfold getProtocolByRequestOptions. rewrite Hp, Ha. cbv zeta.
  assert (E : getPortByRequestOptions options
              = Some (StringToNumber digits)).
  { unfold getPortByRequestOptions. rewrite Hport, Hh.
    change (pre ++ ":" ++ digits)
      with (pre ++ String JsString.colon digits).
    now rewrite JsStringFacts.match_colon_digits_app. }
  rewrite E. cbn [is_SSL_PORT]. rewrite Hssl.
  now rewrite orb_true_r.
Qed.

End ResolverEdgeFacts.

(** ** The edge cases at sample bags *)

Module EdgeSampleFacts.
Import RefHost Samples EdgeSamples.

(** A bracketed IPv6 literal is not bracketed again. *)
Lemma host_without_raw_colon_is_kept_at_sample :
  getHostname "[::1]" None = "[::1]"
  /\ getHostname "[::1]" (Some (Int 8080)) = "[::1]:8080".
Proof.
  destruct (host_without_raw_colon_is_kept (js := ref_host) "[::1]")
    as [Hnone Hsome].
  - right. left. reflexivity.
  - split; [exact Hnone | exact (Hsome (Int 8080))].
Defined.

(** [example.com:8080] is the host [example.com], a colon and [8080]. *)
Lemma hostname_is_host_and_port_at_sample :
  "example.com:8080" = getHostByRequestOptions host_and_port ++ ":8080"
  /\ port_in_hostname host_and_port = Some (Int 8080).
Proof.
  pose proof (hostname_is_host_and_port (js := ref_host) host_and_port
                "example.com:8080" eq_refl) as H.
  cbv beta iota delta [JsString.match_colon_digits] in H.
  destruct H as (H1 & _ & H3). split; [exact H1 | exact H3].
Defined.

Lemma hostname_with_port_is_rendered_back_at_sample :
  rendered_hostname host_and_port = "example.com:8080".
Proof.
  apply (hostname_with_port_is_rendered_back (js := ref_host) host_and_port
           "example.com" "8080"); reflexivity.
Defined.

(** The bag of falsy fields resolves like the empty bag. *)
Lemma falsy_fields_count_as_absent_at_sample :
  getUrlByRequestOptions all_falsy = getUrlByRequestOptions no_options.
Proof.
  destruct (falsy_fields_count_as_absent (js := ref_host) all_falsy)
    as (_ & _ & _ & _ & H).
  rewrite <- H. reflexivity.
Defined.

Lemma auth_is_split_at_colons_at_sample :
  authString (getAuthByRequestOptions (with_auth "user:secret"))
  = "user:secret@"
  /\ authString (getAuthByRequestOptions (with_auth "user:secret:more"))
     = "user:secret@"
  /\ authString (getAuthByRequestOptions (with_auth "user"))
     = "user:undefined@"
  /\ authString (getAuthByRequestOptions (with_auth "")) = "".
Proof.
  destruct (auth_is_split_at_colons (js := ref_host))
    as (Htwo & Hthree & Hone & Hnone).
  split; [|split; [|split]].
  - apply (Htwo (with_auth "user:secret") "user" "secret"); reflexivity.
  - apply (Hthree (with_auth "user:secret:more") "user" "secret" "more");
      reflexivity.
  - apply (Hone (with_auth "user") "user"); reflexivity.
  - apply (Hnone (with_auth "")). reflexivity.
Defined.

Lemma resolved_parts_are_not_empty_at_sample :
  JsString.truthy (getHostByRequestOptions all_falsy) = true.
Proof.
  destruct (resolved_parts_are_not_empty (js := ref_host) all_falsy)
    as (_ & _ & H).
  apply H. reflexivity.
Defined.

(** Hostname [:8080]: the host is empty although [host] is given. *)
Lemma resolved_host_is_empty_iff_at_sample :
  getHostByRequestOptions only_a_port = "".
Proof.
  apply (resolved_host_is_empty_iff (js := ref_host) only_a_port).
  exists ":8080". split; [reflexivity|].
  right. exists "8080". split; reflexivity.
Defined.


Lemma hostname_without_port_is_kept_at_sample :
  getHostByRequestOptions bracketed_hostname = "[::1]"
  /\ port_in_hostname bracketed_hostname = None.
Proof.
  apply (hostname_without_port_is_kept (js := ref_host) bracketed_hostname
           "[::1]"); [reflexivity|].
  right. exists "]"%char. split; reflexivity.
Defined.

Lemma explicit_port_replaces_embedded_port_at_sample :
  getPortByRequestOptions two_ports = Some (Int 3000)
  /\ getHostByRequestOptions two_ports = "example.com"
  /\ rendered_hostname two_ports = "example.com:3000".
Proof.
  apply (explicit_port_replaces_embedded_port (js := ref_host) two_ports
           (@PortNumber ref_host (Int 3000)) "example.com" "8080");
    reflexivity.
Defined.

Lemma ssl_port_in_hostname_selects_https_at_sample :
  getProtocolByRequestOptions ssl_in_hostname = "https:".
Proof.
  apply (ssl_port_in_hostname_selects_https (js := ref_host) ssl_in_hostname
           "example.com" "443"); reflexivity.
Defined.

End EdgeSampleFacts.
